(** * JWT authentication service: token codec, verification middleware,
      request logger and password-hash routes.

    Shallow embedding of
      - src/utils/jwt.ts                (generate*Token, verifyToken)
      - src/middleware/jwt-verify.ts    (extractToken, jwtAuth, refreshTokenAuth
                                         and the per-algorithm wrappers)
      - src/middleware/request-logger.ts (saveLog, requestLogger)
      - src/routes/password.ts          (iteration clamping of /login and /hash)
      - src/index.ts                    (app.onError)

    Promises are modelled by a state-and-exception monad: a rejected promise
    is a thrown exception, [await] is bind.  The external libraries (jose,
    WebCrypto, Hono, D1) are not part of the repository; their behaviour is
    captured by the interface [Jose] and by small models documented where
    they are introduced. *)

From Stdlib Require Import ZArith List String Ascii Bool Lia HexString.
Import ListNotations.
Local Open Scope string_scope.
Local Open Scope Z_scope.

(* ===================================================================== *)
(** ** JavaScript primitives used by the sources *)
(* ===================================================================== *)

Module JS.

(** [s.split(' ')]: the pieces of [s] between single spaces.  The result
    is never empty: the empty string splits into one empty piece. *)
Fixpoint split_space (s : string) : list string :=
  match s with
  | EmptyString => [EmptyString]
  | String c rest =>
      if Ascii.eqb c " "%char then EmptyString :: split_space rest
      else match split_space rest with
           | [] => [String c EmptyString]
           | piece :: pieces => String c piece :: pieces
           end
  end.

(** Truthiness of a [string | undefined] value: [undefined] and the empty
    string are falsy. *)
Definition truthy (v : option string) : bool :=
  match v with
  | None => false
  | Some s => negb (String.eqb s "")
  end.

(** A JavaScript number as far as the sources need it: the values
    reachable from [parseInt] and from integer literals.  Integers are
    kept exact; rounding to a double is monotone and leaves 1000 and
    100000 fixed, so it does not change what the clamp of password.ts
    returns (an overflow to Infinity clamps to 100000 like any large
    integer). *)
Inductive number :=
| NaN
| Fin (z : Z).

(** [Math.max(a, b)] and [Math.min(a, b)]: NaN is contagious. *)
Definition math_max (a b : number) : number :=
  match a, b with
  | Fin x, Fin y => Fin (Z.max x y)
  | _, _ => NaN
  end.

Definition math_min (a b : number) : number :=
  match a, b with
  | Fin x, Fin y => Fin (Z.min x y)
  | _, _ => NaN
  end.

(** [a > b] on numbers: every comparison with NaN is false. *)
Definition gt (a b : number) : bool :=
  match a, b with
  | Fin x, Fin y => y <? x
  | _, _ => false
  end.

(** White space skipped by [parseInt], as far as it is a single byte. *)
Definition is_white (c : ascii) : bool :=
  let n := nat_of_ascii c in
  (Nat.eqb n 32 || Nat.eqb n 9 || Nat.eqb n 10 || Nat.eqb n 11
   || Nat.eqb n 12 || Nat.eqb n 13)%bool.

Definition digit_of (c : ascii) : option Z :=
  let n := nat_of_ascii c in
  if (Nat.leb 48 n && Nat.leb n 57)%bool then Some (Z.of_nat n - 48) else None.

Fixpoint skip_white (s : string) : string :=
  match s with
  | String c rest => if is_white c then skip_white rest else s
  | EmptyString => s
  end.

(** Value of the longest prefix of decimal digits, [None] when the string
    does not start with a digit. *)
Fixpoint digits (acc : option Z) (s : string) : option Z :=
  match s with
  | String c rest =>
      match digit_of c with
      | Some d =>
          digits (Some (10 * match acc with Some a => a | None => 0 end + d)) rest
      | None => acc
      end
  | EmptyString => acc
  end.

(** [parseInt(s, 10)]: leading white space is skipped, one sign is
    accepted, then the longest run of decimal digits is read; without a
    digit the result is NaN. *)
Definition parseInt (s : string) : number :=
  match skip_white s with
  | String "-"%char rest =>
      match digits None rest with Some v => Fin (- v) | None => NaN end
  | String "+"%char rest =>
      match digits None rest with Some v => Fin v | None => NaN end
  | t => match digits None t with Some v => Fin v | None => NaN end
  end.

End JS.

(* ===================================================================== *)
(** ** Exceptions, HTTP responses and the effect monad *)
(* ===================================================================== *)

(** Thrown values.  [HTTPException] is Hono's exception class, the only
    error here that carries a numeric [status]; every other error (the
    plain [Error]s of jwt.ts, jose's error classes, [TypeError]) is an
    [Error] with its class name and message. *)
Inductive Exn :=
| HTTPException (status : Z) (message : string)
| Error (name : string) (message : string).

Definition exn_message (e : Exn) : string :=
  match e with
  | HTTPException _ m => m
  | Error _ m => m
  end.

#[warnings="-register-all"]
Inductive Json :=
| JNull
| JBool (b : bool)
| JNum (z : Z)
| JStr (s : string)
| JObj (fields : list (string * Json)).

Record Response := { status : Z; body : Json }.

Fixpoint field (name : string) (fields : list (string * Json)) : option Json :=
  match fields with
  | [] => None
  | (k, v) :: rest => if String.eqb k name then Some v else field name rest
  end.

(** The [message] member of a JSON error body. *)
Definition body_message (r : Response) : option string :=
  match body r with
  | JObj fields =>
      match field "message" fields with
      | Some (JStr m) => Some m
      | _ => None
      end
  | _ => None
  end.

(** A JSON claim value as found in a decoded token payload.  Numbers are
    whole (NumericDate values are seconds).  [COther] stands for arrays
    and objects, kept as their JSON text. *)
Inductive ClaimValue :=
| CStr (s : string)
| CNum (z : Z)
| CBool (b : bool)
| CNull
| COther (json : string).

(** [interface TokenPayload] of jwt.ts.  The value handed back by
    [jose.jwtVerify] is cast to it unchecked, so every member may be absent
    or of any JSON type.  [nbf] is the registered claim jose validates next
    to [exp]. *)
Record TokenPayload := {
  sub : option ClaimValue;
  email : option ClaimValue;
  iat : option ClaimValue;
  exp : option ClaimValue;
  nbf : option ClaimValue;
  type : option ClaimValue
}.

(** Operations of the key and signature layer, recorded in call order. *)
Inductive CryptoOp :=
| OpEncodeSecret (secret : string)
| OpImportPKCS8 (pem : string)
| OpImportSPKI (pem : string)
| OpSign (alg : string)
| OpJwtVerify (token : string)
| OpPBKDF2 (iterations : JS.number).

Inductive Result (A : Type) :=
| Ok (a : A)
| Throw (e : Exn).
Arguments Ok {A} a.
Arguments Throw {A} e.

(** Mutable part of a request: Hono's context variables and response, the
    console, the key/signature operations performed so far, and the
    settled outcomes of the promises handed to [executionCtx.waitUntil]. *)
Record World := {
  var_jwtPayload : option TokenPayload;
  var_requestId : option string;
  res : Response;
  finalized : bool;
  console : list (string * Exn);
  crypto : list CryptoOp;
  background : list (Result unit)
}.

Definition set_jwtPayload (p : TokenPayload) (w : World) : World :=
  {| var_jwtPayload := Some p; var_requestId := var_requestId w;
     res := res w; finalized := finalized w; console := console w;
     crypto := crypto w; background := background w |}.

Definition set_requestId (i : string) (w : World) : World :=
  {| var_jwtPayload := var_jwtPayload w; var_requestId := Some i;
     res := res w; finalized := finalized w; console := console w;
     crypto := crypto w; background := background w |}.

Definition set_res (r : Response) (w : World) : World :=
  {| var_jwtPayload := var_jwtPayload w; var_requestId := var_requestId w;
     res := r; finalized := true; console := console w;
     crypto := crypto w; background := background w |}.

Definition add_console (label : string) (e : Exn) (w : World) : World :=
  {| var_jwtPayload := var_jwtPayload w; var_requestId := var_requestId w;
     res := res w; finalized := finalized w;
     console := console w ++ [(label, e)];
     crypto := crypto w; background := background w |}.

Definition add_crypto (op : CryptoOp) (w : World) : World :=
  {| var_jwtPayload := var_jwtPayload w; var_requestId := var_requestId w;
     res := res w; finalized := finalized w; console := console w;
     crypto := crypto w ++ [op]; background := background w |}.

Definition add_background (r : Result unit) (w : World) : World :=
  {| var_jwtPayload := var_jwtPayload w; var_requestId := var_requestId w;
     res := res w; finalized := finalized w; console := console w;
     crypto := crypto w; background := background w ++ [r] |}.

(** An asynchronous computation: it transforms the world and either
    resolves with a value or rejects with an exception. *)
Definition M (A : Type) : Type := World -> World * Result A.

Definition ret {A} (a : A) : M A := fun w => (w, Ok a).

Definition throw {A} (e : Exn) : M A := fun w => (w, Throw e).

Definition bind {A B} (m : M A) (k : A -> M B) : M B :=
  fun w =>
    match m w with
    | (w', Ok a) => k a w'
    | (w', Throw e) => (w', Throw e)
    end.

(** [try { m } catch (error) { handler error }] *)
Definition try_catch {A} (m : M A) (handler : Exn -> M A) : M A :=
  fun w =>
    match m w with
    | (w', Ok a) => (w', Ok a)
    | (w', Throw e) => handler e w'
    end.

Definition modify (f : World -> World) : M unit := fun w => (f w, Ok tt).

Declare Scope js_scope.
Delimit Scope js_scope with js.
Notation "x <- m ;; k" := (bind m (fun x => k))
  (at level 100, m at next level, right associativity) : js_scope.
Notation "m ;; k" := (bind m (fun _ => k))
  (at level 100, right associativity) : js_scope.
Local Open Scope js_scope.

Definition console_error (label : string) (e : Exn) : M unit :=
  modify (add_console label e).

Definition record_op (op : CryptoOp) : M unit := modify (add_crypto op).

Definition empty_world : World :=
  {| var_jwtPayload := None; var_requestId := None;
     res := {| status := 404; body := JNull |}; finalized := false;
     console := []; crypto := []; background := [] |}.

(* ===================================================================== *)
(** ** src/utils/jwt.ts *)
(* ===================================================================== *)

(** [type Algorithm = 'HS256' | 'RS256' | 'ES256'] *)
Inductive Algorithm := HS256 | RS256 | ES256.

Definition alg_name (a : Algorithm) : string :=
  match a with
  | HS256 => "HS256"
  | RS256 => "RS256"
  | ES256 => "ES256"
  end.

(** [interface JWTConfig] *)
Record JWTConfig := {
  algorithm : Algorithm;
  secret : option string;
  privateKey : option string;
  publicKey : option string;
  accessTokenExpiry : option string;
  refreshTokenExpiry : option string
}.

(** The input of the generators: [Omit<TokenPayload, 'iat' | 'exp' | 'type'>]. *)
Record UserClaims := { user_sub : string; user_email : string }.

(** *** The jose library

    A compact JWS as jose sees it after decoding: the [alg] member of the
    protected header (any string: the sender chooses it), the claims, and
    the signature bytes. *)
Record JWS := {
  jws_alg : string;
  jws_payload : TokenPayload;
  jws_signature : string
}.

(** A key argument of jose: a [Uint8Array] of secret bytes or an imported
    key object. *)
Inductive Key (CK : Type) :=
| KeyBytes (bytes : string)
| KeyObject (k : CK).
Arguments KeyBytes {CK} bytes.
Arguments KeyObject {CK} k.

(** Outcome of a library call that may throw one of the library's own
    errors, given by class name and message. *)
Inductive Lib (A : Type) :=
| Done (a : A)
| Fails (name : string) (message : string).
Arguments Done {A} a.
Arguments Fails {A} name message.

(** The primitives of jose and of the platform that jwt.ts builds on.
    Signing and signature verification work on the protected header and
    the payload, given here in decoded form. *)
Record Jose := {
  CryptoKey : Type;
  (** [jose.importPKCS8(pem, alg)] and [jose.importSPKI(pem, alg)] *)
  importPKCS8 : string -> Algorithm -> Lib CryptoKey;
  importSPKI : string -> Algorithm -> Lib CryptoKey;
  (** the signature primitive selected by [alg], and its check; a key of
      the wrong kind for [alg] makes signing throw and the check fail *)
  jws_sign : Algorithm -> Key CryptoKey -> TokenPayload -> Lib string;
  jws_verify : Algorithm -> Key CryptoKey -> TokenPayload -> string -> bool;
  (** compact serialization (three base64url segments) and its parser *)
  compact : JWS -> string;
  parse_compact : string -> option JWS;
  (** time-span strings such as 15m, in seconds *)
  secs : string -> option Z;
  (** [Buffer.from(x, 'base64').toString('utf-8')] *)
  base64_utf8 : string -> string;
  (** secret bytes the library accepts as an HMAC key *)
  hmac_key : string -> Prop;
  (** a private and a public key object that belong together *)
  key_pair : Algorithm -> CryptoKey -> CryptoKey -> Prop
}.

Definition plain_claim (v : option ClaimValue) : bool :=
  match v with
  | Some (COther _) => false
  | _ => true
  end.

(** Payloads whose members are JSON scalars. *)
Definition plain_payload (p : TokenPayload) : bool :=
  (plain_claim (sub p) && plain_claim (email p) && plain_claim (iat p)
   && plain_claim (exp p) && plain_claim (nbf p) && plain_claim (type p))%bool.

(** What is assumed of the library: parsing inverts serialization, a
    signature made with a key is accepted under the matching key, and the
    two default time spans have their usual length. *)
Record JoseLaws (J : Jose) : Prop := {
  parse_compact_compact :
    forall j, plain_payload (jws_payload j) = true ->
              parse_compact J (compact J j) = Some j;
  hmac_sign_verify :
    forall k p, hmac_key J k ->
      exists s, jws_sign J HS256 (KeyBytes k) p = Done s
                /\ jws_verify J HS256 (KeyBytes k) p s = true;
  pair_sign_verify :
    forall a sk pk p, a <> HS256 -> key_pair J a sk pk ->
      exists s, jws_sign J a (KeyObject sk) p = Done s
                /\ jws_verify J a (KeyObject pk) p s = true;
  secs_15m : secs J "15m" = Some 900;
  secs_7d : secs J "7d" = Some 604800
}.

Section JwtUtils.

Variable J : Jose.

Definition lift {A} (r : Result A) : M A := fun w => (w, r).

Definition lift_lib {A} (r : Lib A) : M A :=
  match r with
  | Done a => ret a
  | Fails name message => throw (Error name message)
  end.

(** The [exp] check of jose with no clock tolerance: when present,
    [exp] must be a number and must lie after [now]. *)
Definition check_exp (p : TokenPayload) (now : Z) : Result TokenPayload :=
  match exp p with
  | None => Ok p
  | Some (CNum e) =>
      if e <=? now
      then Throw (Error "JWTExpired" "exp claim timestamp check failed")
      else Ok p
  | Some _ => Throw (Error "JWTClaimValidationFailed" "exp claim must be a number")
  end.

(** jose's claim validation with default options (no clock tolerance, no
    required claims), in its order: [iat], when present, must be a number;
    [nbf], when present, must be a number not after [now]; then [exp]. *)
Definition validate_claims (p : TokenPayload) (now : Z) : Result TokenPayload :=
  match iat p with
  | Some (CNum _) | None =>
      match nbf p with
      | None => check_exp p now
      | Some (CNum n) =>
          if now <? n
          then Throw (Error "JWTClaimValidationFailed" "nbf claim timestamp check failed")
          else check_exp p now
      | Some _ => Throw (Error "JWTClaimValidationFailed" "nbf claim must be a number")
      end
  | Some _ => Throw (Error "JWTClaimValidationFailed" "iat claim must be a number")
  end.

(** [jose.jwtVerify(token, key, { algorithms })] at clock reading [now]
    (seconds).  In order: the token is parsed; the [alg] of its header
    must be one of [algorithms]; the signature is checked with the
    primitive of that algorithm and the given key; the claims are
    validated. *)
Definition jwtVerify (token : string) (key : Key (CryptoKey J))
    (algorithms : list Algorithm) (now : Z) : M TokenPayload :=
  record_op (OpJwtVerify token) ;;
  match parse_compact J token with
  | None => throw (Error "JWSInvalid" "Invalid Compact JWS")
  | Some jws =>
      match find (fun a => String.eqb (alg_name a) (jws_alg jws)) algorithms with
      | None =>
          throw (Error "JOSEAlgNotAllowed" "alg Header Parameter value not allowed")
      | Some a =>
          if jws_verify J a key (jws_payload jws) (jws_signature jws)
          then lift (validate_claims (jws_payload jws) now)
          else throw (Error "JWSSignatureVerificationFailed"
                            "signature verification failed")
      end
  end.

(** The [jose.SignJWT] builder. *)
Record SignJWT := {
  protectedHeader : option Algorithm;
  claims : TokenPayload
}.

Definition new_SignJWT (p : TokenPayload) : SignJWT :=
  {| protectedHeader := None; claims := p |}.

Definition setProtectedHeader (a : Algorithm) (b : SignJWT) : SignJWT :=
  {| protectedHeader := Some a; claims := claims b |}.

(** [.setIssuedAt()]: stamps [iat] with the clock. *)
Definition setIssuedAt (now : Z) (b : SignJWT) : SignJWT :=
  {| protectedHeader := protectedHeader b;
     claims := {| sub := sub (claims b); email := email (claims b);
                  iat := Some (CNum now); exp := exp (claims b);
                  nbf := nbf (claims b); type := type (claims b) |} |}.

(** [.setExpirationTime(span)]: stamps [exp] with the clock plus the
    span; throws on a span it cannot read. *)
Definition setExpirationTime (span : string) (now : Z) (b : SignJWT) : Result SignJWT :=
  match secs J span with
  | None => Throw (Error "TypeError" "Invalid time period format")
  | Some d =>
      Ok {| protectedHeader := protectedHeader b;
            claims := {| sub := sub (claims b); email := email (claims b);
                         iat := iat (claims b); exp := Some (CNum (now + d));
                         nbf := nbf (claims b); type := type (claims b) |} |}
  end.

(** [.sign(key)] *)
Definition sign (key : Key (CryptoKey J)) (b : SignJWT) : M string :=
  match protectedHeader b with
  | None => throw (Error "JWSInvalid" "alg Header Parameter missing or invalid")
  | Some a =>
      record_op (OpSign (alg_name a)) ;;
      s <- lift_lib (jws_sign J a key (claims b)) ;;
      ret (compact J {| jws_alg := alg_name a; jws_payload := claims b;
                        jws_signature := s |})
  end.

(** *** The functions of jwt.ts *)

Definition decodeBase64Key (base64Key : string) : string :=
  base64_utf8 J base64Key.

Definition getHS256Key (secret : string) : M (Key (CryptoKey J)) :=
  record_op (OpEncodeSecret secret) ;;
  ret (KeyBytes secret).

Definition importPrivateKey (base64Key : string) (a : Algorithm)
  : M (Key (CryptoKey J)) :=
  let pem := decodeBase64Key base64Key in
  record_op (OpImportPKCS8 pem) ;;
  k <- lift_lib (importPKCS8 J pem a) ;;
  ret (KeyObject k).

Definition importPublicKey (base64Key : string) (a : Algorithm)
  : M (Key (CryptoKey J)) :=
  let pem := decodeBase64Key base64Key in
  record_op (OpImportSPKI pem) ;;
  k <- lift_lib (importSPKI J pem a) ;;
  ret (KeyObject k).

Definition default {A} (d : A) (v : option A) : A :=
  match v with
  | Some x => x
  | None => d
  end.

(** [if (!v) throw new Error(message)]: past the guard [v] is a
    non-empty string. *)
Definition required (v : option string) (message : string) : M string :=
  match v with
  | Some s => if JS.truthy v then ret s else throw (Error "Error" message)
  | None => throw (Error "Error" message)
  end.

Definition generateAccessToken (payload : UserClaims) (config : JWTConfig)
    (now : Z) : M string :=
  let expiry := default "15m" (accessTokenExpiry config) in
  let tokenPayload :=
    {| sub := Some (CStr (user_sub payload));
       email := Some (CStr (user_email payload));
       iat := None; exp := None; nbf := None;
       type := Some (CStr "access") |} in
  match algorithm config with
  | HS256 =>
      s <- required (secret config) "Secret is required for HS256" ;;
      key <- getHS256Key s ;;
      b <- lift (setExpirationTime expiry now
                   (setIssuedAt now
                      (setProtectedHeader HS256 (new_SignJWT tokenPayload)))) ;;
      sign key b
  | a =>
      pk <- required (privateKey config) "Private key is required for RS256/ES256" ;;
      key <- importPrivateKey pk a ;;
      b <- lift (setExpirationTime expiry now
                   (setIssuedAt now
                      (setProtectedHeader a (new_SignJWT tokenPayload)))) ;;
      sign key b
  end.

Definition generateRefreshToken (payload : UserClaims) (config : JWTConfig)
    (now : Z) : M string :=
  let expiry := default "7d" (refreshTokenExpiry config) in
  let tokenPayload :=
    {| sub := Some (CStr (user_sub payload));
       email := Some (CStr (user_email payload));
       iat := None; exp := None; nbf := None;
       type := Some (CStr "refresh") |} in
  match algorithm config with
  | HS256 =>
      s <- required (secret config) "Secret is required for HS256" ;;
      key <- getHS256Key s ;;
      b <- lift (setExpirationTime expiry now
                   (setIssuedAt now
                      (setProtectedHeader HS256 (new_SignJWT tokenPayload)))) ;;
      sign key b
  | a =>
      pk <- required (privateKey config) "Private key is required for RS256/ES256" ;;
      key <- importPrivateKey pk a ;;
      b <- lift (setExpirationTime expiry now
                   (setIssuedAt now
                      (setProtectedHeader a (new_SignJWT tokenPayload)))) ;;
      sign key b
  end.

Definition verifyToken (token : string) (config : JWTConfig) (now : Z)
  : M TokenPayload :=
  match algorithm config with
  | HS256 =>
      s <- required (secret config) "Secret is required for HS256" ;;
      key <- getHS256Key s ;;
      jwtVerify token key [HS256] now
  | a =>
      pk <- required (publicKey config) "Public key is required for RS256/ES256" ;;
      key <- importPublicKey pk a ;;
      jwtVerify token key [a] now
  end.

End JwtUtils.

(* ===================================================================== *)
(** ** Hono: request context and dispatch *)
(* ===================================================================== *)

(** One row of the [request_logs] table ([interface RequestLog]). *)
Record RequestLog := {
  request_id : string;
  timestamp : string;
  method : string;
  path : string;
  log_status : Z;
  latency_ms : Z;
  user_id : option ClaimValue;
  log_algorithm : option string;
  token_type : option ClaimValue;
  ip : option string;
  user_agent : option string;
  error_message : option string
}.

(** A D1 database as the logger uses it: the outcome of running the
    INSERT statement for a row (it resolves, or rejects with an error). *)
Record D1Database := { run_insert : RequestLog -> Result unit }.

(** [c.env]: the bindings of the worker.  A binding that was not
    configured reads as [undefined]. *)
Record Bindings := {
  JWT_HS256_SECRET : option string;
  JWT_RS256_PRIVATE_KEY : option string;
  JWT_RS256_PUBLIC_KEY : option string;
  JWT_ES256_PRIVATE_KEY : option string;
  JWT_ES256_PUBLIC_KEY : option string;
  TEST_USER_EMAIL : option string;
  TEST_USER_PASSWORD : option string;
  DB : option D1Database
}.

(** The read-only part of Hono's [Context]: the request and [c.env]. *)
Record Context := {
  req_method : string;
  req_path : string;
  req_header : string -> option string;
  req_query : string -> option string;
  env : Bindings
}.

(** [next]: the rest of the handler chain. *)
Definition Next : Type := M unit.

(** A middleware or route handler: it may return a response. *)
Definition MiddlewareHandler : Type := Context -> Next -> M (option Response).

(** ** src/index.ts: the error handler *)

(** [app.onError]: an error with a numeric [status] (an HTTPException)
    keeps that status, any other error becomes a 500; the error's message
    is put into the body in both cases. *)
Definition onError (err : Exn) : Response :=
  match err with
  | HTTPException st msg =>
      {| status := st;
         body := JObj [("error", JStr (if 500 <=? st then "Internal Server Error"
                                       else "Request Error"));
                       ("message", JStr msg)] |}
  | Error _ msg =>
      {| status := 500;
         body := JObj [("error", JStr "Internal Server Error");
                       ("message", JStr msg)] |}
  end.

(** Hono's dispatch of a handler chain: each handler runs with the rest of
    the chain as its [next]; an exception leaving a handler is given to
    the error handler, whose response replaces [c.res]; a returned response
    becomes [c.res] unless one was set already.  [next()] therefore never
    rejects. *)
Fixpoint dispatch (handlers : list MiddlewareHandler) (c : Context) : M unit :=
  match handlers with
  | [] => ret tt
  | h :: rest =>
      fun w =>
        match h c (dispatch rest c) w with
        | (w', Ok (Some r)) => ((if finalized w' then w' else set_res r w'), Ok tt)
        | (w', Ok None) => (w', Ok tt)
        | (w', Throw e) => (set_res (onError e) w', Ok tt)
        end
  end.

(* ===================================================================== *)
(** ** src/middleware/jwt-verify.ts *)
(* ===================================================================== *)

(** [interface JWTMiddlewareConfig] *)
Record JWTMiddlewareConfig := {
  mw_algorithm : Algorithm;
  mw_secret : option string;
  mw_publicKey : option string
}.

(** [type KeyGetter = (c: Context) => string]; the binding it reads may be
    undefined at run time. *)
Definition KeyGetter : Type := Context -> option string.

Definition extractToken (c : Context) : option string :=
  match req_header c "Authorization" with
  | None => None
  | Some authHeader =>
      if negb (JS.truthy (Some authHeader)) then None
      else
        match JS.split_space authHeader with
        | [scheme; token] => if String.eqb scheme "Bearer" then Some token else None
        | _ => None
        end
  end.

(** [payload.type !== expected] *)
Definition type_differs (p : TokenPayload) (expected : string) : bool :=
  match type p with
  | Some (CStr s) => negb (String.eqb s expected)
  | _ => true
  end.

Definition is_HTTPException (e : Exn) : bool :=
  match e with
  | HTTPException _ _ => true
  | Error _ _ => false
  end.

Section JwtVerify.

Variable J : Jose.
(** Reading of the clock (seconds) while the request is served. *)
Variable now : Z.

Definition jwtAuth (config : JWTMiddlewareConfig) : MiddlewareHandler :=
  fun c next =>
    match extractToken c with
    | Some token =>
        if negb (JS.truthy (Some token)) then
          throw (HTTPException 401 "Authorization header is missing or invalid")
        else
          try_catch
            (let jwtConfig :=
               {| algorithm := mw_algorithm config;
                  secret := mw_secret config;
                  privateKey := None;
                  publicKey := mw_publicKey config;
                  accessTokenExpiry := None;
                  refreshTokenExpiry := None |} in
             payload <- verifyToken J token jwtConfig now ;;
             if type_differs payload "access" then
               throw (HTTPException 401 "Invalid token type. Access token required.")
             else
               modify (set_jwtPayload payload) ;;
               next ;;
               ret None)
            (fun error =>
               if is_HTTPException error then throw error
               else
                 console_error "JWT verification failed:" error ;;
                 throw (HTTPException 401 "Invalid or expired token"))
    | None =>
        throw (HTTPException 401 "Authorization header is missing or invalid")
    end.

Definition refreshTokenAuth (config : JWTMiddlewareConfig) : MiddlewareHandler :=
  fun c next =>
    match extractToken c with
    | Some token =>
        if negb (JS.truthy (Some token)) then
          throw (HTTPException 401 "Authorization header is missing or invalid")
        else
          try_catch
            (let jwtConfig :=
               {| algorithm := mw_algorithm config;
                  secret := mw_secret config;
                  privateKey := None;
                  publicKey := mw_publicKey config;
                  accessTokenExpiry := None;
                  refreshTokenExpiry := None |} in
             payload <- verifyToken J token jwtConfig now ;;
             if type_differs payload "refresh" then
               throw (HTTPException 401 "Invalid token type. Refresh token required.")
             else
               modify (set_jwtPayload payload) ;;
               next ;;
               ret None)
            (fun error =>
               if is_HTTPException error then throw error
               else
                 console_error "Refresh token verification failed:" error ;;
                 throw (HTTPException 401 "Invalid or expired refresh token"))
    | None =>
        throw (HTTPException 401 "Authorization header is missing or invalid")
    end.

Definition hs256Auth (secretGetter : KeyGetter) : MiddlewareHandler :=
  fun c next =>
    let secret := secretGetter c in
    jwtAuth {| mw_algorithm := HS256; mw_secret := secret; mw_publicKey := None |} c next.

Definition rs256Auth (publicKeyGetter : KeyGetter) : MiddlewareHandler :=
  fun c next =>
    let publicKey := publicKeyGetter c in
    jwtAuth {| mw_algorithm := RS256; mw_secret := None; mw_publicKey := publicKey |} c next.

Definition es256Auth (publicKeyGetter : KeyGetter) : MiddlewareHandler :=
  fun c next =>
    let publicKey := publicKeyGetter c in
    jwtAuth {| mw_algorithm := ES256; mw_secret := None; mw_publicKey := publicKey |} c next.

Definition hs256RefreshAuth (secretGetter : KeyGetter) : MiddlewareHandler :=
  fun c next =>
    let secret := secretGetter c in
    refreshTokenAuth
      {| mw_algorithm := HS256; mw_secret := secret; mw_publicKey := None |} c next.

Definition rs256RefreshAuth (publicKeyGetter : KeyGetter) : MiddlewareHandler :=
  fun c next =>
    let publicKey := publicKeyGetter c in
    refreshTokenAuth
      {| mw_algorithm := RS256; mw_secret := None; mw_publicKey := publicKey |} c next.

Definition es256RefreshAuth (publicKeyGetter : KeyGetter) : MiddlewareHandler :=
  fun c next =>
    let publicKey := publicKeyGetter c in
    refreshTokenAuth
      {| mw_algorithm := ES256; mw_secret := None; mw_publicKey := publicKey |} c next.

End JwtVerify.

(* ===================================================================== *)
(** ** src/middleware/request-logger.ts *)
(* ===================================================================== *)

(** [path.match(/\/auth\/(hs256|rs256|es256)\//)], upper-cased: the
    leftmost occurrence decides. *)
Fixpoint extractAlgorithm (path : string) : option string :=
  if String.prefix "/auth/hs256/" path then Some "HS256"
  else if String.prefix "/auth/rs256/" path then Some "RS256"
  else if String.prefix "/auth/es256/" path then Some "ES256"
  else match path with
       | EmptyString => None
       | String _ rest => extractAlgorithm rest
       end.

(** [saveLog]: the INSERT runs inside [try]; an error is written to the
    console and goes no further. *)
Definition saveLog (db : D1Database) (log : RequestLog) : M unit :=
  try_catch
    (fun w => (w, run_insert db log))
    (fun error => console_error "Failed to save request log:" error).

(** [c.executionCtx.waitUntil(promise)]: the promise is run to its end in
    the background; its outcome does not reach the caller. *)
Definition waitUntil (promise : M unit) : M unit :=
  fun w =>
    match promise w with
    | (w', r) => (add_background r w', Ok tt)
    end.

(** [a || b] on header values. *)
Definition or_else (a b : option string) : option string :=
  if JS.truthy a then a else b.

(** [v || null] on a claim value: falsy values become [null]. *)
Definition or_null (v : option ClaimValue) : option ClaimValue :=
  match v with
  | Some (CStr s) => if String.eqb s "" then None else v
  | Some (CNum z) => if z =? 0 then None else v
  | Some (CBool false) => None
  | Some CNull => None
  | _ => v
  end.

Section RequestLogger.

(** [crypto.randomUUID()], [Date.now()] at entry, [new Date().toISOString()]
    at entry, and [Date.now()] in the [finally] block. *)
Variables (requestId : string) (startTime : Z) (isoTime : string) (endTime : Z).

Definition make_log (c : Context) (st : Z) (errorMessage : option string)
    (userId tokenType : option ClaimValue) : RequestLog :=
  {| request_id := requestId;
     timestamp := isoTime;
     method := req_method c;
     path := req_path c;
     log_status := st;
     latency_ms := endTime - startTime;
     user_id := userId;
     log_algorithm := extractAlgorithm (req_path c);
     token_type := tokenType;
     ip := or_else (req_header c "cf-connecting-ip") (req_header c "x-forwarded-for");
     user_agent := or_else (req_header c "user-agent") None;
     error_message := errorMessage |}.

(** The [finally] block: build the row and hand the write to
    [waitUntil] when a database is bound. *)
Definition finally_block (c : Context) (st : Z) (errorMessage : option string)
    (userId tokenType : option ClaimValue) : M unit :=
  let log := make_log c st errorMessage userId tokenType in
  match DB (env c) with
  | Some db => waitUntil (saveLog db log)
  | None => ret tt
  end.

Definition requestLogger : MiddlewareHandler :=
  fun c next =>
    modify (set_requestId requestId) ;;
    fun w =>
      match next w with
      | (w1, Ok _) =>
          (* try block completed *)
          let st := status (res w1) in
          let userId :=
            match var_jwtPayload w1 with
            | Some payload => or_null (sub payload)
            | None => None
            end in
          let tokenType :=
            match var_jwtPayload w1 with
            | Some payload => or_null (type payload)
            | None => None
            end in
          match finally_block c st None userId tokenType w1 with
          | (w2, Ok _) => (w2, Ok None)
          | (w2, Throw e) => (w2, Throw e)
          end
      | (w1, Throw error) =>
          (* catch block, which rethrows *)
          let st :=
            match error with
            | HTTPException s _ => s
            | Error _ _ => 500
            end in
          match finally_block c st (Some (exn_message error)) None None w1 with
          | (w2, Ok _) => (w2, Throw error)
          | (w2, Throw e) => (w2, Throw e)
          end
      end.

End RequestLogger.

(** [c] with another database bound to [DB]. *)
Definition with_DB (db : option D1Database) (c : Context) : Context :=
  {| req_method := req_method c; req_path := req_path c;
     req_header := req_header c; req_query := req_query c;
     env := {| JWT_HS256_SECRET := JWT_HS256_SECRET (env c);
               JWT_RS256_PRIVATE_KEY := JWT_RS256_PRIVATE_KEY (env c);
               JWT_RS256_PUBLIC_KEY := JWT_RS256_PUBLIC_KEY (env c);
               JWT_ES256_PRIVATE_KEY := JWT_ES256_PRIVATE_KEY (env c);
               JWT_ES256_PUBLIC_KEY := JWT_ES256_PUBLIC_KEY (env c);
               TEST_USER_EMAIL := TEST_USER_EMAIL (env c);
               TEST_USER_PASSWORD := TEST_USER_PASSWORD (env c);
               DB := db |} |}.

(* ===================================================================== *)
(** ** src/routes/password.ts *)
(* ===================================================================== *)

(** [interface StoredUser] *)
Record StoredUser := {
  stored_id : string;
  stored_email : string;
  passwordHash : string;
  salt : string;
  iterations : JS.number
}.

(** [const userStore: Map<string, StoredUser>], in insertion order. *)
Definition UserStore : Type := list (string * StoredUser).

Fixpoint store_get (email : string) (store : UserStore) : option StoredUser :=
  match store with
  | [] => None
  | (k, u) :: rest => if String.eqb k email then Some u else store_get email rest
  end.

Fixpoint store_set (email : string) (u : StoredUser) (store : UserStore) : UserStore :=
  match store with
  | [] => [(email, u)]
  | (k, v) :: rest =>
      if String.eqb k email then (k, u) :: rest else (k, v) :: store_set email u rest
  end.

(** Lines 121-126 of /login: the [iterations] query parameter, parsed
    when present and not empty, otherwise 100000; then the clamp. *)
Definition login_safeIterations (c : Context) : JS.number :=
  let iterationsParam := req_query c "iterations" in
  let iterations :=
    match iterationsParam with
    | Some p => if JS.truthy iterationsParam then JS.parseInt p else JS.Fin 100000
    | None => JS.Fin 100000
    end in
  JS.math_min (JS.math_max iterations (JS.Fin 1000)) (JS.Fin 100000).

(** Line 200 of /hash: [body.iterations || 100000], then the clamp.  The
    body member is declared [iterations?: number]. *)
Definition hash_iterations (body_iterations : option Z) : JS.number :=
  let requested :=
    match body_iterations with
    | Some n => if n =? 0 then 100000 else n
    | None => 100000
    end in
  JS.math_min (JS.math_max (JS.Fin requested) (JS.Fin 1000)) (JS.Fin 100000).

Section Password.

(** PBKDF2-HMAC-SHA256 of the platform, 256 bits, in base64. *)
Variable pbkdf2 : string -> string -> Z -> string.

(** [hashPassword]: [crypto.subtle.deriveBits] takes the iteration count
    as an unsigned integer in enforced range, so NaN and counts below one
    are refused with an error; Cloudflare Workers refuse counts above
    100000. *)
Definition hashPassword (password salt : string) (iterations : JS.number)
  : M string :=
  record_op (OpPBKDF2 iterations) ;;
  match iterations with
  | JS.NaN => throw (Error "TypeError" "iterations is not a valid unsigned long")
  | JS.Fin n =>
      if n <? 1 then throw (Error "OperationError" "iterations must be positive")
      else if 100000 <? n
      then throw (Error "NotSupportedError" "iteration counts above 100000 are not supported")
      else ret (pbkdf2 password salt n)
  end.

Definition verifyPassword (password salt storedHash : string)
    (iterations : JS.number) : M bool :=
  computedHash <- hashPassword password salt iterations ;;
  ret (String.eqb computedHash storedHash).

Definition json_response (st : Z) (fields : list (string * Json)) : Response :=
  {| status := st; body := JObj fields |}.

Definition number_json (n : JS.number) : Json :=
  match n with
  | JS.Fin z => JNum z
  | JS.NaN => JNull
  end.

(** [app.post('/login')].  [freshSalt] is what [generateSalt()] returns
    in this request, [processingTime] the measured time.  The handler
    reads and updates the process-wide user store. *)
Definition password_login (c : Context) (email password : string)
    (freshSalt : string) (processingTime : Z) (store : UserStore)
  : M (UserStore * Response) :=
  let safeIterations := login_safeIterations c in
  let testEmail := default "test@example.com" (or_else (TEST_USER_EMAIL (env c)) None) in
  let testPassword := default "password123" (or_else (TEST_USER_PASSWORD (env c)) None) in
  found <-
    match store_get email store with
    | None =>
        if String.eqb email testEmail then
          hash <- hashPassword testPassword freshSalt safeIterations ;;
          let user := {| stored_id := "user-1"; stored_email := testEmail;
                         passwordHash := hash; salt := freshSalt;
                         iterations := safeIterations |} in
          ret (Some user, store_set email user store)
        else ret (None, store)
    | Some user => ret (Some user, store)
    end ;;
  match found with
  | (None, store') =>
      hashPassword password freshSalt safeIterations ;;
      ret (store',
           json_response 401
             [("error", JStr "Authentication failed");
              ("message", JStr "Invalid email or password")])
  | (Some user, store') =>
      isValid <- verifyPassword password (salt user) (passwordHash user)
                   (iterations user) ;;
      if isValid then
        ret (store',
             json_response 200
               [("success", JBool true);
                ("message", JStr "Authentication successful");
                ("user", JObj [("id", JStr (stored_id user));
                               ("email", JStr (stored_email user))]);
                ("meta", JObj [("algorithm", JStr "PBKDF2-SHA256");
                               ("iterations", number_json (iterations user));
                               ("processingTimeMs", JNum processingTime)])])
      else
        ret (store',
             json_response 401
               [("error", JStr "Authentication failed");
                ("message", JStr "Invalid email or password");
                ("processingTimeMs", JNum processingTime)])
  end.


End Password.

(* ===================================================================== *)
(** ** A small executable instance of the jose interface

    It is used to run the model on concrete requests.  Keys are their own
    text (a private key and its public key share it), a signature is a tag
    computed from the algorithm, the key and the payload, and a token is
    the list of its members, each written with a marker before every
    character and closed by a dot. *)
(* ===================================================================== *)

Module Toy.

Fixpoint enc (s : string) (rest : string) : string :=
  match s with
  | EmptyString => String "."%char rest
  | String c s' => String "x"%char (String c (enc s' rest))
  end.

Fixpoint dec (input : string) : option (string * string) :=
  match input with
  | String "."%char rest => Some (EmptyString, rest)
  | String "x"%char (String c rest) =>
      match dec rest with
      | Some (s, r) => Some (String c s, r)
      | None => None
      end
  | _ => None
  end.

Definition claim_text (v : option ClaimValue) : string :=
  match v with
  | None => "u"
  | Some (CStr s) => String "s"%char s
  | Some (CNum z) => String "n"%char (HexString.of_Z z)
  | Some (CBool true) => "t"
  | Some (CBool false) => "f"
  | Some CNull => "0"
  | Some (COther j) => String "o"%char j
  end.

Definition text_claim (t : string) : option (option ClaimValue) :=
  match t with
  | String "u"%char EmptyString => Some None
  | String "s"%char s => Some (Some (CStr s))
  | String "n"%char h => Some (Some (CNum (HexString.to_Z h)))
  | String "t"%char EmptyString => Some (Some (CBool true))
  | String "f"%char EmptyString => Some (Some (CBool false))
  | String "0"%char EmptyString => Some (Some CNull)
  | String "o"%char j => Some (Some (COther j))
  | _ => None
  end.

Definition payload_text (p : TokenPayload) (rest : string) : string :=
  enc (claim_text (sub p)) (enc (claim_text (email p)) (enc (claim_text (iat p))
    (enc (claim_text (exp p)) (enc (claim_text (nbf p))
      (enc (claim_text (type p)) rest))))).

Definition toy_compact (j : JWS) : string :=
  enc (jws_alg j) (payload_text (jws_payload j) (enc (jws_signature j) "")).

Definition dec_claim (input : string) : option (option ClaimValue * string) :=
  match dec input with
  | Some (t, rest) =>
      match text_claim t with
      | Some v => Some (v, rest)
      | None => None
      end
  | None => None
  end.

Definition toy_parse (token : string) : option JWS :=
  match dec token with
  | Some (a, r0) =>
    match dec_claim r0 with
    | Some (vsub, r1) =>
      match dec_claim r1 with
      | Some (vemail, r2) =>
        match dec_claim r2 with
        | Some (viat, r3) =>
          match dec_claim r3 with
          | Some (vexp, r4) =>
            match dec_claim r4 with
            | Some (vnbf, r5) =>
              match dec_claim r5 with
              | Some (vtype, r6) =>
                match dec r6 with
                | Some (sig, EmptyString) =>
                    Some {| jws_alg := a;
                            jws_payload := {| sub := vsub; email := vemail;
                                              iat := viat; exp := vexp;
                                              nbf := vnbf; type := vtype |};
                            jws_signature := sig |}
                | _ => None
                end
              | None => None
              end
            | None => None
            end
          | None => None
          end
        | None => None
        end
      | None => None
      end
    | None => None
    end
  | None => None
  end.

Definition key_text (a : Algorithm) (k : Key string) : option string :=
  match a, k with
  | HS256, KeyBytes b => Some b
  | RS256, KeyObject m => Some m
  | ES256, KeyObject m => Some m
  | _, _ => None
  end.

Definition tag (a : Algorithm) (kt : string) (p : TokenPayload) : string :=
  enc (alg_name a) (enc kt (payload_text p "")).

Definition toy_sign (a : Algorithm) (k : Key string) (p : TokenPayload)
  : Lib string :=
  match key_text a k with
  | Some kt => Done (tag a kt p)
  | None => Fails "TypeError" "Key for this algorithm must be of another type"
  end.

Definition toy_verify (a : Algorithm) (k : Key string) (p : TokenPayload)
    (sig : string) : bool :=
  match key_text a k with
  | Some kt => String.eqb sig (tag a kt p)
  | None => false
  end.

Definition import_key (pem : string) (a : Algorithm) : Lib string :=
  if String.eqb pem "" then Fails "TypeError" "invalid key block"
  else Done pem.

Definition toy_secs (span : string) : option Z :=
  if String.eqb span "15m" then Some 900
  else if String.eqb span "7d" then Some 604800
  else None.

Definition jose : Jose :=
  {| CryptoKey := string;
     importPKCS8 := import_key;
     importSPKI := import_key;
     jws_sign := toy_sign;
     jws_verify := toy_verify;
     compact := toy_compact;
     parse_compact := toy_parse;
     secs := toy_secs;
     base64_utf8 := fun s => s;
     hmac_key := fun _ => True;
     key_pair := fun _ sk pk => sk = pk |}.

End Toy.

(* ===================================================================== *)
(** ** Vocabulary of the properties *)
(* ===================================================================== *)

(** The response a client receives when the chain [handlers] serves [c],
    starting from world [w]. *)
Definition serve (handlers : list MiddlewareHandler) (c : Context) (w : World)
  : Response :=
  res (fst (dispatch handlers c w)).

(** The [jwtConfig] object both middlewares build from their own config. *)
Definition jwtConfig_of (config : JWTMiddlewareConfig) : JWTConfig :=
  {| algorithm := mw_algorithm config;
     secret := mw_secret config;
     privateKey := None;
     publicKey := mw_publicKey config;
     accessTokenExpiry := None;
     refreshTokenExpiry := None |}.

(** The two kinds of token-protected operation and what tells their
    middlewares apart: the required [type], the message for a token of the
    other type, the console label and the message for any other failure. *)
Inductive TokenKind := AccessKind | RefreshKind.

Definition required_type (k : TokenKind) : string :=
  match k with
  | AccessKind => "access"
  | RefreshKind => "refresh"
  end.

Definition type_message (k : TokenKind) : string :=
  match k with
  | AccessKind => "Invalid token type. Access token required."
  | RefreshKind => "Invalid token type. Refresh token required."
  end.

Definition console_label (k : TokenKind) : string :=
  match k with
  | AccessKind => "JWT verification failed:"
  | RefreshKind => "Refresh token verification failed:"
  end.

Definition generic_message (k : TokenKind) : string :=
  match k with
  | AccessKind => "Invalid or expired token"
  | RefreshKind => "Invalid or expired refresh token"
  end.

Definition missing_header_message : string :=
  "Authorization header is missing or invalid".

(** The token middlewares of jwt-verify.ts with the config each of them
    runs under on request [c]: [jwtAuth], [refreshTokenAuth] and the six
    per-algorithm wrappers. *)
Inductive Guard (J : Jose) (now : Z) (c : Context)
  : TokenKind -> JWTMiddlewareConfig -> MiddlewareHandler -> Prop :=
| guard_jwtAuth config :
    Guard J now c AccessKind config (jwtAuth J now config)
| guard_hs256Auth getter :
    Guard J now c AccessKind
      {| mw_algorithm := HS256; mw_secret := getter c; mw_publicKey := None |}
      (hs256Auth J now getter)
| guard_rs256Auth getter :
    Guard J now c AccessKind
      {| mw_algorithm := RS256; mw_secret := None; mw_publicKey := getter c |}
      (rs256Auth J now getter)
| guard_es256Auth getter :
    Guard J now c AccessKind
      {| mw_algorithm := ES256; mw_secret := None; mw_publicKey := getter c |}
      (es256Auth J now getter)
| guard_refreshTokenAuth config :
    Guard J now c RefreshKind config (refreshTokenAuth J now config)
| guard_hs256RefreshAuth getter :
    Guard J now c RefreshKind
      {| mw_algorithm := HS256; mw_secret := getter c; mw_publicKey := None |}
      (hs256RefreshAuth J now getter)
| guard_rs256RefreshAuth getter :
    Guard J now c RefreshKind
      {| mw_algorithm := RS256; mw_secret := None; mw_publicKey := getter c |}
      (rs256RefreshAuth J now getter)
| guard_es256RefreshAuth getter :
    Guard J now c RefreshKind
      {| mw_algorithm := ES256; mw_secret := None; mw_publicKey := getter c |}
      (es256RefreshAuth J now getter).

(** What a token middleware does once a non-empty bearer token has been
    extracted, written once for both kinds. *)
Definition checkToken (J : Jose) (now : Z) (k : TokenKind)
    (config : JWTMiddlewareConfig) (token : string) (next : Next)
  : M (option Response) :=
  try_catch
    (payload <- verifyToken J token (jwtConfig_of config) now ;;
     if type_differs payload (required_type k) then
       throw (HTTPException 401 (type_message k))
     else
       modify (set_jwtPayload payload) ;;
       next ;;
       ret None)
    (fun error =>
       if is_HTTPException error then throw error
       else
         console_error (console_label k) error ;;
         throw (HTTPException 401 (generic_message k))).

(** The Authorization header is missing, or it is not exactly the word
    Bearer, one space and one more piece. *)
Definition bad_authorization (c : Context) : Prop :=
  match req_header c "Authorization" with
  | None => True
  | Some h =>
      List.length (JS.split_space h) <> 2%nat
      \/ List.hd "" (JS.split_space h) <> "Bearer"
  end.

(** The key the configured algorithm verifies with is absent (undefined
    or empty). *)
Definition key_absent (config : JWTMiddlewareConfig) : Prop :=
  match mw_algorithm config with
  | HS256 => JS.truthy (mw_secret config) = false
  | _ => JS.truthy (mw_publicKey config) = false
  end.

Definition key_required_message (a : Algorithm) : string :=
  match a with
  | HS256 => "Secret is required for HS256"
  | _ => "Public key is required for RS256/ES256"
  end.

(** Key material that fits algorithm [a]: a non-empty secret the library
    accepts as HMAC key, shared by signer and verifier, or a
    private key block for the signer and a public key block for the
    verifier that import to a key pair. *)
Definition valid_keys (J : Jose) (a : Algorithm) (signer verifier : JWTConfig)
  : Prop :=
  algorithm signer = a /\ algorithm verifier = a /\
  match a with
  | HS256 =>
      exists s, s <> "" /\ hmac_key J s
                /\ secret signer = Some s /\ secret verifier = Some s
  | _ =>
      exists priv pub sk pk,
        priv <> "" /\ pub <> "" /\
        privateKey signer = Some priv /\ publicKey verifier = Some pub /\
        importPKCS8 J (base64_utf8 J priv) a = Done sk /\
        importSPKI J (base64_utf8 J pub) a = Done pk /\
        key_pair J a sk pk
  end.

(** The claims of a token issued for [user] at [now] with life time [d]. *)
Definition issued_claims (user : UserClaims) (tokenType : string) (now d : Z)
  : TokenPayload :=
  {| sub := Some (CStr (user_sub user));
     email := Some (CStr (user_email user));
     iat := Some (CNum now);
     exp := Some (CNum (now + d));
     nbf := None;
     type := Some (CStr tokenType) |}.

(** Two worlds show the client the same thing: response, context
    variables and key operations agree (console and background work may
    differ). *)
Definition same_outcome (w1 w2 : World) : Prop :=
  res w1 = res w2 /\ finalized w1 = finalized w2 /\
  var_jwtPayload w1 = var_jwtPayload w2 /\
  var_requestId w1 = var_requestId w2 /\
  crypto w1 = crypto w2.

(** The [type] the other kind of operation requires. *)
Definition other_type (k : TokenKind) : string :=
  match k with
  | AccessKind => "refresh"
  | RefreshKind => "access"
  end.

(** [m] rejects when started in [w]. *)
Definition throws {A} (m : M A) (w : World) : Prop :=
  exists w' e, m w = (w', Throw e).

(** The body the two generators share: they differ in the [type] claim
    and in the expiry setting only. *)
Definition generateToken (J : Jose) (tokenType expiry : string)
    (payload : UserClaims) (config : JWTConfig) (now : Z) : M string :=
  let tokenPayload :=
    {| sub := Some (CStr (user_sub payload));
       email := Some (CStr (user_email payload));
       iat := None; exp := None; nbf := None;
       type := Some (CStr tokenType) |} in
  match algorithm config with
  | HS256 =>
      s <- required (secret config) "Secret is required for HS256" ;;
      key <- getHS256Key J s ;;
      b <- lift (setExpirationTime J expiry now
                   (setIssuedAt now
                      (setProtectedHeader HS256 (new_SignJWT tokenPayload)))) ;;
      sign J key b
  | a =>
      pk <- required (privateKey config) "Private key is required for RS256/ES256" ;;
      key <- importPrivateKey J pk a ;;
      b <- lift (setExpirationTime J expiry now
                   (setIssuedAt now
                      (setProtectedHeader a (new_SignJWT tokenPayload)))) ;;
      sign J key b
  end.

(** A request to /login whose query string carries
    [iterations=<value>]. *)
Definition login_request (value : string) : Context :=
  {| req_method := "POST";
     req_path := "/auth/password/login";
     req_header := fun _ => None;
     req_query := fun name => if String.eqb name "iterations" then Some value else None;
     env := {| JWT_HS256_SECRET := None; JWT_RS256_PRIVATE_KEY := None;
               JWT_RS256_PUBLIC_KEY := None; JWT_ES256_PRIVATE_KEY := None;
               JWT_ES256_PUBLIC_KEY := None; TEST_USER_EMAIL := None;
               TEST_USER_PASSWORD := None; DB := None |} |}.

(* ===================================================================== *)
(** ** Concrete requests *)
(* ===================================================================== *)

Module Sample.

Definition bindings : Bindings :=
  {| JWT_HS256_SECRET := Some "s3cret";
     JWT_RS256_PRIVATE_KEY := Some "rsa-key";
     JWT_RS256_PUBLIC_KEY := Some "rsa-key";
     JWT_ES256_PRIVATE_KEY := Some "ec-key";
     JWT_ES256_PUBLIC_KEY := Some "ec-key";
     TEST_USER_EMAIL := Some "test@example.com";
     TEST_USER_PASSWORD := Some "password123";
     DB := None |}.

(** The same worker without its HS256 secret. *)
Definition bindings_no_secret : Bindings :=
  {| JWT_HS256_SECRET := None;
     JWT_RS256_PRIVATE_KEY := Some "rsa-key";
     JWT_RS256_PUBLIC_KEY := Some "rsa-key";
     JWT_ES256_PRIVATE_KEY := Some "ec-key";
     JWT_ES256_PUBLIC_KEY := Some "ec-key";
     TEST_USER_EMAIL := Some "test@example.com";
     TEST_USER_PASSWORD := Some "password123";
     DB := None |}.

Definition hs_config : JWTConfig :=
  {| algorithm := HS256; secret := Some "s3cret"; privateKey := None;
     publicKey := None; accessTokenExpiry := None; refreshTokenExpiry := None |}.

Definition rs_config : JWTConfig :=
  {| algorithm := RS256; secret := None; privateKey := Some "rsa-key";
     publicKey := Some "rsa-key"; accessTokenExpiry := None;
     refreshTokenExpiry := None |}.

Definition user : UserClaims :=
  {| user_sub := "user-1"; user_email := "test@example.com" |}.

(** Clock readings: tokens are issued at 1000 and presented at 1060. *)
Definition issued_at : Z := 1000.
Definition presented_at : Z := 1060.

Definition token_of (m : M string) : string :=
  match m empty_world with
  | (_, Ok t) => t
  | (_, Throw _) => ""
  end.

Definition access_token : string :=
  token_of (generateAccessToken Toy.jose user hs_config issued_at).

Definition refresh_token : string :=
  token_of (generateRefreshToken Toy.jose user hs_config issued_at).

(** A token with an HS256 header whose HMAC key is the text of the RSA
    public key. *)
Definition forged_token : string :=
  match jws_sign Toy.jose HS256 (KeyBytes "rsa-key")
          (issued_claims user "access" issued_at 900) with
  | Done sig =>
      compact Toy.jose
        {| jws_alg := "HS256";
           jws_payload := issued_claims user "access" issued_at 900;
           jws_signature := sig |}
  | Fails _ _ => ""
  end.

(** A token that is correctly signed but carries no [type] claim. *)
Definition untyped_claims : TokenPayload :=
  {| sub := Some (CStr "user-1"); email := Some (CStr "test@example.com");
     iat := Some (CNum 1000); exp := Some (CNum 1900); nbf := None;
     type := None |}.

Definition untyped_token : string :=
  match jws_sign Toy.jose HS256 (KeyBytes "s3cret") untyped_claims with
  | Done sig =>
      compact Toy.jose
        {| jws_alg := "HS256"; jws_payload := untyped_claims;
           jws_signature := sig |}
  | Fails _ _ => ""
  end.

Definition request (e : Bindings) (authorization : option string) : Context :=
  {| req_method := "GET";
     req_path := "/auth/hs256/protected";
     req_header := fun name =>
                     if String.eqb name "Authorization" then authorization else None;
     req_query := fun _ => None;
     env := e |}.

Definition bearer (token : string) : option string :=
  Some ("Bearer " ++ token).

Definition secretGetter : KeyGetter := fun c => JWT_HS256_SECRET (env c).

(** The handler behind the middleware. *)
Definition protected : MiddlewareHandler :=
  fun _ _ =>
    ret (Some {| status := 200;
                 body := JObj [("message", JStr "Access granted to protected resource")] |}).

Definition failing_db : D1Database :=
  {| run_insert := fun _ => Throw (Error "Error" "D1_ERROR: no such table: request_logs") |}.

Definition working_db : D1Database :=
  {| run_insert := fun _ => Ok tt |}.

End Sample.

(* ===================================================================== *)
(** ** src/routes/hs256.ts, rs256.ts, es256.ts

    The three route files are the same text up to the algorithm, the
    bindings they read and the middleware they mount; [a] selects the
    file. *)
(* ===================================================================== *)

(** The [config] object the login and refresh handlers of a file build. *)
Definition route_config (a : Algorithm) (e : Bindings) : JWTConfig :=
  match a with
  | HS256 =>
      {| algorithm := HS256; secret := JWT_HS256_SECRET e; privateKey := None;
         publicKey := None; accessTokenExpiry := None; refreshTokenExpiry := None |}
  | RS256 =>
      {| algorithm := RS256; secret := None;
         privateKey := JWT_RS256_PRIVATE_KEY e; publicKey := JWT_RS256_PUBLIC_KEY e;
         accessTokenExpiry := None; refreshTokenExpiry := None |}
  | ES256 =>
      {| algorithm := ES256; secret := None;
         privateKey := JWT_ES256_PRIVATE_KEY e; publicKey := JWT_ES256_PUBLIC_KEY e;
         accessTokenExpiry := None; refreshTokenExpiry := None |}
  end.

(** The key getter a file hands to its middlewares. *)
Definition route_key (a : Algorithm) : KeyGetter :=
  fun c =>
    match a with
    | HS256 => JWT_HS256_SECRET (env c)
    | RS256 => JWT_RS256_PUBLIC_KEY (env c)
    | ES256 => JWT_ES256_PUBLIC_KEY (env c)
    end.

(** The middleware mounted on /verify and /protected, and the one mounted
    on /refresh. *)
Definition route_auth (J : Jose) (now : Z) (a : Algorithm) : MiddlewareHandler :=
  match a with
  | HS256 => hs256Auth J now (route_key HS256)
  | RS256 => rs256Auth J now (route_key RS256)
  | ES256 => es256Auth J now (route_key ES256)
  end.

Definition route_refreshAuth (J : Jose) (now : Z) (a : Algorithm)
  : MiddlewareHandler :=
  match a with
  | HS256 => hs256RefreshAuth J now (route_key HS256)
  | RS256 => rs256RefreshAuth J now (route_key RS256)
  | ES256 => es256RefreshAuth J now (route_key ES256)
  end.

(** The config under which the middlewares of a file run on request [c]. *)
Definition route_mw_config (a : Algorithm) (c : Context) : JWTMiddlewareConfig :=
  match a with
  | HS256 => {| mw_algorithm := HS256; mw_secret := route_key HS256 c;
                mw_publicKey := None |}
  | RS256 => {| mw_algorithm := RS256; mw_secret := None;
                mw_publicKey := route_key RS256 c |}
  | ES256 => {| mw_algorithm := ES256; mw_secret := None;
                mw_publicKey := route_key ES256 c |}
  end.

(** [body_value !== binding]: a string of the request body against a
    binding that may be undefined. *)
Definition differs (body_value : string) (binding : option string) : bool :=
  match binding with
  | Some b => negb (String.eqb body_value b)
  | None => true
  end.

(** A claim value as a member of a JSON response: an absent claim leaves
    no member; an array or object claim is carried as its JSON text. *)
Definition member (name : string) (v : option ClaimValue) : list (string * Json) :=
  match v with
  | None => []
  | Some (CStr s) => [(name, JStr s)]
  | Some (CNum z) => [(name, JNum z)]
  | Some (CBool b) => [(name, JBool b)]
  | Some CNull => [(name, JNull)]
  | Some (COther j) => [(name, JObj [("json", JStr j)])]
  end.

(** [c.get('jwtPayload')] followed by a member access: without a payload
    the access throws. *)
Definition get_jwtPayload : M TokenPayload :=
  fun w =>
    match var_jwtPayload w with
    | Some p => (w, Ok p)
    | None =>
        (w, Throw (Error "TypeError" "Cannot read properties of undefined"))
    end.

(** The generators applied to a payload whose [sub] and [email] come from
    verified claims and so may be absent or of any JSON type (the refresh
    handlers).  On two strings this is the generator itself. *)
Definition generateTokenFrom (J : Jose) (tokenType expiry : string)
    (sub_v email_v : option ClaimValue) (config : JWTConfig) (now : Z)
  : M string :=
  let tokenPayload :=
    {| sub := sub_v; email := email_v;
       iat := None; exp := None; nbf := None;
       type := Some (CStr tokenType) |} in
  match algorithm config with
  | HS256 =>
      s <- required (secret config) "Secret is required for HS256" ;;
      key <- getHS256Key J s ;;
      b <- lift (setExpirationTime J expiry now
                   (setIssuedAt now
                      (setProtectedHeader HS256 (new_SignJWT tokenPayload)))) ;;
      sign J key b
  | a =>
      pk <- required (privateKey config) "Private key is required for RS256/ES256" ;;
      key <- importPrivateKey J pk a ;;
      b <- lift (setExpirationTime J expiry now
                   (setIssuedAt now
                      (setProtectedHeader a (new_SignJWT tokenPayload)))) ;;
      sign J key b
  end.

Section Routes.

Variable J : Jose.
(** Clock reading (seconds) and [new Date().toISOString()] while the
    request is served. *)
Variables (now : Z) (isoTime : string).
Variable a : Algorithm.

Definition tokens_body (message : string) (accessToken refreshToken : string)
  : list (string * Json) :=
  [("message", JStr message);
   ("algorithm", JStr (alg_name a));
   ("accessToken", JStr accessToken);
   ("refreshToken", JStr refreshToken);
   ("expiresIn", JStr "15m")].

(** [post('/login')]; [email] and [password] are the members of the JSON
    body. *)
Definition route_login (email password : string) : MiddlewareHandler :=
  fun c _ =>
    if (differs email (TEST_USER_EMAIL (env c))
        || differs password (TEST_USER_PASSWORD (env c)))%bool
    then ret (Some (json_response 401 [("error", JStr "Invalid credentials")]))
    else
      let config := route_config a (env c) in
      let payload := {| user_sub := "user-1"; user_email := email |} in
      accessToken <- generateAccessToken J payload config now ;;
      refreshToken <- generateRefreshToken J payload config now ;;
      ret (Some (json_response 200
                   (tokens_body "Login successful" accessToken refreshToken))).

(** [post('/refresh')], behind the refresh middleware. *)
Definition route_refresh : MiddlewareHandler :=
  fun c _ =>
    jwtPayload <- get_jwtPayload ;;
    let config := route_config a (env c) in
    accessToken <- generateTokenFrom J "access"
                     (default "15m" (accessTokenExpiry config))
                     (sub jwtPayload) (email jwtPayload) config now ;;
    refreshToken <- generateTokenFrom J "refresh"
                      (default "7d" (refreshTokenExpiry config))
                      (sub jwtPayload) (email jwtPayload) config now ;;
    ret (Some (json_response 200
                 (tokens_body "Token refreshed" accessToken refreshToken))).

(** [get('/verify')], behind the access middleware. *)
Definition route_verify : MiddlewareHandler :=
  fun c _ =>
    jwtPayload <- get_jwtPayload ;;
    ret (Some (json_response 200
                 [("valid", JBool true);
                  ("algorithm", JStr (alg_name a));
                  ("payload",
                   JObj (member "sub" (sub jwtPayload)
                         ++ member "email" (email jwtPayload)
                         ++ member "type" (type jwtPayload)
                         ++ member "iat" (iat jwtPayload)
                         ++ member "exp" (exp jwtPayload)))])).

(** [get('/protected')], behind the access middleware. *)
Definition route_protected : MiddlewareHandler :=
  fun c _ =>
    jwtPayload <- get_jwtPayload ;;
    ret (Some (json_response 200
                 [("message", JStr "Access granted to protected resource");
                  ("algorithm", JStr (alg_name a));
                  ("user",
                   JObj (member "id" (sub jwtPayload)
                         ++ member "email" (email jwtPayload)));
                  ("data",
                   JObj [("secretInfo",
                          JStr ("This is protected data only accessible with a valid "
                                ++ alg_name a ++ " JWT"));
                         ("timestamp", JStr isoTime)])])).

End Routes.

(** A string without a space. *)
Fixpoint no_space (s : string) : bool :=
  match s with
  | EmptyString => true
  | String c rest => negb (Ascii.eqb c " "%char) && no_space rest
  end.

(** A token that survives the Authorization header: not empty and without
    a space (every compact JWS is such a string). *)
Definition bearer_safe (token : string) : Prop :=
  token <> "" /\ no_space token = true.

(** The worker is provisioned for algorithm [a]: the keys its route file
    signs with and the key its middlewares verify with fit together. *)
Definition provisioned (J : Jose) (a : Algorithm) (c : Context) : Prop :=
  valid_keys J a (route_config a (env c)) (jwtConfig_of (route_mw_config a c)).

(** ** src/utils/jwt.ts: [getJWKS] *)



Section Jwks.

Variable J : Jose.
(** [jose.exportJWK(key)]: the members of the JSON Web Key. *)
Variable exportJWK : CryptoKey J -> list (string * Json).



End Jwks.

(** ** src/index.ts: the row limit of /logs *)

(** [Math.min(parseInt(c.req.query('limit') || '100', 10), 1000)], the
    limit handed to [getRecentLogs]. *)
Definition logs_limit (c : Context) : JS.number :=
  let limit := JS.parseInt (default "100" (or_else (req_query c "limit") None)) in
  JS.math_min limit (JS.Fin 1000).

(** ** Vocabulary of the further properties *)

(** An iteration count PBKDF2 may be run with: a number of [1000, 100000]. *)
Definition in_range (n : JS.number) : Prop :=
  exists m, n = JS.Fin m /\ 1000 <= m <= 100000.

(** Every stored user carries an iteration count in range. *)
Definition store_ok (store : UserStore) : Prop :=
  forall email u, store_get email store = Some u -> in_range (iterations u).

(** The three path prefixes the logger looks for. *)
Definition auth_prefix (a : Algorithm) : string :=
  match a with
  | HS256 => "/auth/hs256/"
  | RS256 => "/auth/rs256/"
  | ES256 => "/auth/es256/"
  end.

(** The test identity of /auth/password/login. *)
Definition testEmail_of (c : Context) : string :=
  default "test@example.com" (or_else (TEST_USER_EMAIL (env c)) None).

Definition testPassword_of (c : Context) : string :=
  default "password123" (or_else (TEST_USER_PASSWORD (env c)) None).

(** [parts.join(' ')]: the pieces with one space between neighbours. *)
Fixpoint join_space (parts : list string) : string :=
  match parts with
  | [] => EmptyString
  | [piece] => piece
  | piece :: rest => piece ++ String " "%char (join_space rest)
  end.

(** The key [verifyToken] builds from a config: the secret bytes for
    HS256, the imported public key block otherwise. *)
Definition verification_key (J : Jose) (config : JWTConfig)
    (key : Key (CryptoKey J)) : Prop :=
  match algorithm config with
  | HS256 =>
      exists s, secret config = Some s /\ s <> "" /\ key = KeyBytes s
  | a =>
      exists pk k, publicKey config = Some pk /\ pk <> ""
                   /\ importSPKI J (base64_utf8 J pk) a = Done k
                   /\ key = KeyObject k
  end.

(** [w'] differs from [w] in the recorded key operations only. *)
Definition frame (w w' : World) : Prop :=
  var_jwtPayload w' = var_jwtPayload w /\ var_requestId w' = var_requestId w
  /\ res w' = res w /\ finalized w' = finalized w
  /\ console w' = console w /\ background w' = background w.

(** A computation that touches nothing but the record of key operations. *)
Definition crypto_only {A} (m : M A) : Prop :=
  forall w w' r, m w = (w', r) -> frame w w'.

(** The key a route file signs with is absent (undefined or empty). *)
Definition signing_key_absent (a : Algorithm) (e : Bindings) : Prop :=
  match a with
  | HS256 => JS.truthy (JWT_HS256_SECRET e) = false
  | RS256 => JS.truthy (JWT_RS256_PRIVATE_KEY e) = false
  | ES256 => JS.truthy (JWT_ES256_PRIVATE_KEY e) = false
  end.

Definition signing_key_message (a : Algorithm) : string :=
  match a with
  | HS256 => "Secret is required for HS256"
  | _ => "Private key is required for RS256/ES256"
  end.

(** The user every login handler issues tokens for. *)
Definition login_user (email : string) : UserClaims :=
  {| user_sub := "user-1"; user_email := email |}.




(** The record /login stores at the first login of the test identity. *)
Definition registered_user (pbkdf2 : string -> string -> Z -> string)
    (c : Context) (freshSalt : string) (m : Z) : StoredUser :=
  {| stored_id := "user-1";
     stored_email := testEmail_of c;
     passwordHash := pbkdf2 (testPassword_of c) freshSalt m;
     salt := freshSalt;
     iterations := JS.Fin m |}.

(** A PBKDF2 run with a count of [1000, 100000]. *)
Definition pbkdf2_in_range (op : CryptoOp) : Prop :=
  exists m, op = OpPBKDF2 (JS.Fin m) /\ 1000 <= m <= 100000.



(* ===================================================================== *)
(** ** JavaScript primitives on examples *)
(* ===================================================================== *)

Example split_bearer : JS.split_space "Bearer abc" = ["Bearer"; "abc"].
Proof. reflexivity. Qed.

Example split_empty : JS.split_space "" = [""].
Proof. reflexivity. Qed.

Example split_two_spaces : JS.split_space "Bearer  abc" = ["Bearer"; ""; "abc"].
Proof. reflexivity. Qed.

Example parseInt_number : JS.parseInt "  250000xyz" = JS.Fin 250000.
Proof. reflexivity. Qed.

Example parseInt_word : JS.parseInt "abc" = JS.NaN.
Proof. reflexivity. Qed.

(* ===================================================================== *)
(** ** Facts about the executable instance *)
(* ===================================================================== *)

Module ToyFacts.

Import Toy.

Lemma dec_enc (s rest : string) : dec (enc s rest) = Some (s, rest).
Proof.
  induction s as [|c s IH]; simpl.
  - reflexivity.
  - rewrite IH. reflexivity.
Qed.

Lemma text_claim_text (v : option ClaimValue) :
  text_claim (claim_text v) = Some v.
Proof.
  destruct v as [[s|z|[|]| |j]|]; simpl; try reflexivity.
  rewrite HexString.to_Z_of_Z. reflexivity.
Qed.

Lemma dec_claim_enc (v : option ClaimValue) (rest : string) :
  dec_claim (enc (claim_text v) rest) = Some (v, rest).
Proof.
  unfold dec_claim. rewrite dec_enc, text_claim_text. reflexivity.
Qed.

Lemma toy_parse_compact (j : JWS) : toy_parse (toy_compact j) = Some j.
Proof.
  destruct j as [a [vsub vemail viat vexp vnbf vtype] sig].
  unfold toy_parse, toy_compact, payload_text; cbn [jws_alg jws_payload jws_signature sub email iat exp nbf type].
  rewrite dec_enc. repeat rewrite dec_claim_enc. rewrite dec_enc.
  reflexivity.
Qed.

Lemma laws : JoseLaws jose.
Proof.
  constructor; cbn.
  - intros j _. apply toy_parse_compact.
  - intros k p _. exists (tag HS256 k p). unfold toy_sign, toy_verify; cbn.
    split; [reflexivity | apply String.eqb_refl].
  - intros a sk pk p Ha Hpair. subst pk. exists (tag a sk p).
    unfold toy_sign, toy_verify.
    destruct a; try congruence; cbn;
      (split; [reflexivity | apply String.eqb_refl]).
  - reflexivity.
  - reflexivity.
Qed.

End ToyFacts.

(* ===================================================================== *)
(** ** Basic facts *)
(* ===================================================================== *)

Lemma truthy_nonempty (s : string) : s <> "" -> JS.truthy (Some s) = true.
Proof.
  intros Hs. unfold JS.truthy.
  destruct (String.eqb_spec s ""); [contradiction | reflexivity].
Qed.

Lemma required_present (v : option string) (msg : string) (s : string) (w : World) :
  v = Some s -> s <> "" -> required v msg w = (w, Ok s).
Proof.
  intros -> Hs. unfold required. rewrite (truthy_nonempty s Hs). reflexivity.
Qed.

Lemma required_absent (v : option string) (msg : string) (w : World) :
  JS.truthy v = false -> required v msg w = (w, Throw (Error "Error" msg)).
Proof.
  intros Hv. unfold required. destruct v as [s|]; [rewrite Hv|]; reflexivity.
Qed.

(** Every middleware of jwt-verify.ts extracts the token, refuses a
    missing or empty one and otherwise checks it. *)
Lemma guard_run (J : Jose) (now : Z) (c : Context) (k : TokenKind)
    (config : JWTMiddlewareConfig) (mw : MiddlewareHandler) (next : Next) :
  Guard J now c k config mw ->
  mw c next =
  match extractToken c with
  | Some token =>
      if negb (JS.truthy (Some token))
      then throw (HTTPException 401 missing_header_message)
      else checkToken J now k config token next
  | None => throw (HTTPException 401 missing_header_message)
  end.
Proof.
  intros G. destruct G; reflexivity.
Qed.

Lemma extractToken_bad (c : Context) :
  bad_authorization c -> extractToken c = None.
Proof.
  unfold bad_authorization, extractToken.
  destruct (req_header c "Authorization") as [h|]; [|reflexivity].
  intros Hbad.
  destruct (negb (JS.truthy (Some h))); [reflexivity|].
  destruct (JS.split_space h) as [|scheme [|token [|extra rest]]];
    try reflexivity.
  simpl in Hbad.
  destruct (String.eqb_spec scheme "Bearer") as [->|]; [|reflexivity].
  destruct Hbad as [Hlen | Hscheme]; [exfalso; apply Hlen | exfalso; apply Hscheme];
    reflexivity.
Qed.

(** The converse: a token is extracted only from a header of the shape
    Bearer, one space, token. *)
Lemma extractToken_some (c : Context) (token : string) :
  extractToken c = Some token ->
  exists h, req_header c "Authorization" = Some h
            /\ JS.split_space h = ["Bearer"; token].
Proof.
  unfold extractToken.
  destruct (req_header c "Authorization") as [h|]; [|discriminate].
  destruct (negb (JS.truthy (Some h))); [discriminate|].
  destruct (JS.split_space h) as [|scheme [|tok [|extra rest]]] eqn:Hsplit;
    try discriminate.
  destruct (String.eqb_spec scheme "Bearer") as [->|]; [|discriminate].
  intros [= ->]. exists h. split; [reflexivity | assumption].
Qed.

(** jwt.ts and jose throw plain errors only, never an HTTPException. *)
Lemma check_exp_plain (p : TokenPayload) (now : Z) (e : Exn) :
  check_exp p now = Throw e -> is_HTTPException e = false.
Proof.
  unfold check_exp.
  destruct (exp p) as [[s|z|b| |j]|]; try (intros [= <-]; reflexivity);
    try discriminate.
  destruct (z <=? now); [intros [= <-]; reflexivity | discriminate].
Qed.

Lemma validate_claims_plain (p : TokenPayload) (now : Z) (e : Exn) :
  validate_claims p now = Throw e -> is_HTTPException e = false.
Proof.
  unfold validate_claims.
  destruct (iat p) as [[]|]; try (intros [= <-]; reflexivity);
    (destruct (nbf p) as [[s|n|b| |j]|]; try (intros [= <-]; reflexivity);
     try apply check_exp_plain;
     destruct (now <? n); [intros [= <-]; reflexivity | apply check_exp_plain]).
Qed.

Lemma jwtVerify_plain (J : Jose) token key algs now w w' e :
  jwtVerify J token key algs now w = (w', Throw e) -> is_HTTPException e = false.
Proof.
  unfold jwtVerify, bind, record_op, modify, throw, lift.
  destruct (parse_compact J token) as [jws|]; [|intros [= _ <-]; reflexivity].
  destruct (find _ algs) as [a|]; [|intros [= _ <-]; reflexivity].
  destruct (jws_verify J a key _ _); [|intros [= _ <-]; reflexivity].
  intros [= _ H]. eapply validate_claims_plain; eassumption.
Qed.

Lemma bind_throw_inv {A B} (m : M A) (k : A -> M B) w w' e :
  bind m k w = (w', Throw e) ->
  m w = (w', Throw e) \/ exists a w1, m w = (w1, Ok a) /\ k a w1 = (w', Throw e).
Proof.
  unfold bind. destruct (m w) as [w1 [a|e1]].
  - intros H. right. exists a, w1. split; [reflexivity | exact H].
  - intros [= -> ->]. left. reflexivity.
Qed.

Lemma bind_ok_inv {A B} (m : M A) (k : A -> M B) w w' b :
  bind m k w = (w', Ok b) ->
  exists a w1, m w = (w1, Ok a) /\ k a w1 = (w', Ok b).
Proof.
  unfold bind. destruct (m w) as [w1 [a|e1]].
  - intros H. exists a, w1. split; [reflexivity | exact H].
  - discriminate.
Qed.

Lemma required_plain v msg w w' e :
  required v msg w = (w', Throw e) -> is_HTTPException e = false.
Proof.
  unfold required, ret, throw.
  destruct v as [s|]; [destruct (JS.truthy (Some s))|];
    intros [= _ <-]; reflexivity.
Qed.

Lemma lift_lib_plain {A} (r : Lib A) w w' e :
  lift_lib r w = (w', Throw e) -> is_HTTPException e = false.
Proof.
  destruct r; unfold lift_lib, ret, throw; intros [= _ <-]; reflexivity.
Qed.

Lemma importPublicKey_plain (J : Jose) b64 a w w' e :
  importPublicKey J b64 a w = (w', Throw e) -> is_HTTPException e = false.
Proof.
  unfold importPublicKey. intros H.
  apply bind_throw_inv in H. destruct H as [H | (x & w1 & _ & H)].
  - discriminate H.
  - apply bind_throw_inv in H. destruct H as [H | (k & w2 & _ & H)].
    + eapply lift_lib_plain; eassumption.
    + discriminate H.
Qed.

Lemma verifyToken_plain (J : Jose) token config now w w' e :
  verifyToken J token config now w = (w', Throw e) -> is_HTTPException e = false.
Proof.
  unfold verifyToken. intros H.
  destruct (algorithm config);
    (apply bind_throw_inv in H; destruct H as [H | (s & w1 & _ & H)];
     [eapply required_plain; eassumption|];
     apply bind_throw_inv in H; destruct H as [H | (key & w2 & _ & H)];
     [first [discriminate H | eapply importPublicKey_plain; eassumption]
     | eapply jwtVerify_plain; eassumption]).
Qed.

(* ===================================================================== *)
(** ** The token middlewares *)
(* ===================================================================== *)

Lemma checkToken_verify_fails (J : Jose) now k config token next w w1 e :
  verifyToken J token (jwtConfig_of config) now w = (w1, Throw e) ->
  checkToken J now k config token next w
  = (add_console (console_label k) e w1,
     Throw (HTTPException 401 (generic_message k))).
Proof.
  intros H. unfold checkToken, try_catch, bind. rewrite H.
  rewrite (verifyToken_plain _ _ _ _ _ _ _ H). reflexivity.
Qed.

Lemma type_differs_iff (p : TokenPayload) (expected : string) :
  type_differs p expected = true <-> type p <> Some (CStr expected).
Proof.
  unfold type_differs. destruct (type p) as [[s|z|b| |j]|];
    try (split; [intros _; discriminate | reflexivity]).
  destruct (String.eqb_spec s expected) as [->|Hne]; simpl.
  - split; [discriminate | intros H; exfalso; apply H; reflexivity].
  - split; [intros _ [= ->]; apply Hne; reflexivity | reflexivity].
Qed.

Lemma checkToken_wrong_type (J : Jose) now k config token next w w1 p :
  verifyToken J token (jwtConfig_of config) now w = (w1, Ok p) ->
  type p <> Some (CStr (required_type k)) ->
  checkToken J now k config token next w
  = (w1, Throw (HTTPException 401 (type_message k))).
Proof.
  intros H Ht. apply type_differs_iff in Ht.
  unfold checkToken, try_catch, bind. rewrite H, Ht. reflexivity.
Qed.

Lemma guard_run_token (J : Jose) now c k config mw next token :
  Guard J now c k config mw ->
  extractToken c = Some token -> token <> "" ->
  mw c next = checkToken J now k config token next.
Proof.
  intros G Hx Ht. rewrite (guard_run _ _ _ _ _ _ next G), Hx.
  rewrite (truthy_nonempty _ Ht). reflexivity.
Qed.

Lemma serve_throw (mw : MiddlewareHandler) rest c w w' e :
  mw c (dispatch rest c) w = (w', Throw e) ->
  serve (mw :: rest) c w = onError e.
Proof.
  intros H. unfold serve. cbn [dispatch]. rewrite H. reflexivity.
Qed.

Lemma onError_401 (msg : string) :
  status (onError (HTTPException 401 msg)) = 401
  /\ body_message (onError (HTTPException 401 msg)) = Some msg.
Proof. split; reflexivity. Qed.

(** C7.  Bearer extraction: when the Authorization header is missing, does
    not start with the scheme Bearer, or does not split into exactly two
    space-separated parts, no token is extracted and every token
    middleware throws HTTPException 401 at once: the world is unchanged, so
    no key was loaded, nothing was parsed or verified and the rest of the
    chain did not run; the client receives status 401. *)
Theorem bearer_extraction (J : Jose) (now : Z) (c : Context) (k : TokenKind)
    (config : JWTMiddlewareConfig) (mw : MiddlewareHandler)
    (rest : list MiddlewareHandler) (w : World) :
  Guard J now c k config mw ->
  bad_authorization c ->
  extractToken c = None
  /\ (forall next,
        mw c next w = (w, Throw (HTTPException 401 missing_header_message)))
  /\ status (serve (mw :: rest) c w) = 401.
Proof.
  intros G Hbad. pose proof (extractToken_bad c Hbad) as Hx.
  assert (Hrun : forall next,
             mw c next w = (w, Throw (HTTPException 401 missing_header_message))).
  { intros next. rewrite (guard_run _ _ _ _ _ _ next G), Hx. reflexivity. }
  split; [assumption|]. split; [assumption|].
  rewrite (serve_throw _ _ _ _ _ _ (Hrun _)). reflexivity.
Qed.

(** C2.  Type gating: a bearer token that verifies (valid signature, not
    expired) and whose [type] is refresh is rejected by the access
    middlewares, and one whose [type] is access by the refresh
    middlewares, under any of the three algorithms: the middleware throws
    HTTPException 401 without running the rest of the chain, and the
    client receives status 401. *)
Theorem type_gating (J : Jose) (now : Z) (c : Context) (k : TokenKind)
    (config : JWTMiddlewareConfig) (mw : MiddlewareHandler) (next : Next)
    (rest : list MiddlewareHandler) (w w1 : World) (token : string)
    (p : TokenPayload) :
  Guard J now c k config mw ->
  extractToken c = Some token -> token <> "" ->
  verifyToken J token (jwtConfig_of config) now w = (w1, Ok p) ->
  type p = Some (CStr (other_type k)) ->
  mw c next w = (w1, Throw (HTTPException 401 (type_message k)))
  /\ status (serve (mw :: rest) c w) = 401.
Proof.
  intros G Hx Ht Hv Hty.
  assert (Hne : type p <> Some (CStr (required_type k))).
  { rewrite Hty. destruct k; discriminate. }
  assert (Hrun : forall nx,
             mw c nx w = (w1, Throw (HTTPException 401 (type_message k)))).
  { intros nx. rewrite (guard_run_token _ _ _ _ _ _ nx _ G Hx Ht).
    eapply checkToken_wrong_type; eassumption. }
  split; [apply Hrun|].
  rewrite (serve_throw _ _ _ _ _ _ (Hrun _)). reflexivity.
Qed.

(** C10.  Missing or foreign type: a bearer token that verifies but whose
    payload has no [type], or a [type] that is anything but the exact
    string the operation requires, is rejected by the access middlewares
    and by the refresh middlewares alike with HTTPException 401; the rest
    of the chain does not run and the client receives status 401. *)
Theorem missing_type_rejected (J : Jose) (now : Z) (c : Context) (k : TokenKind)
    (config : JWTMiddlewareConfig) (mw : MiddlewareHandler) (next : Next)
    (rest : list MiddlewareHandler) (w w1 : World) (token : string)
    (p : TokenPayload) :
  Guard J now c k config mw ->
  extractToken c = Some token -> token <> "" ->
  verifyToken J token (jwtConfig_of config) now w = (w1, Ok p) ->
  type p <> Some (CStr (required_type k)) ->
  mw c next w = (w1, Throw (HTTPException 401 (type_message k)))
  /\ status (serve (mw :: rest) c w) = 401.
Proof.
  intros G Hx Ht Hv Hne.
  assert (Hrun : forall nx,
             mw c nx w = (w1, Throw (HTTPException 401 (type_message k)))).
  { intros nx. rewrite (guard_run_token _ _ _ _ _ _ nx _ G Hx Ht).
    eapply checkToken_wrong_type; eassumption. }
  split; [apply Hrun|].
  rewrite (serve_throw _ _ _ _ _ _ (Hrun _)). reflexivity.
Qed.

(** C5, as the code has it.  Every verification failure at a token
    middleware ends in HTTPException 401 and the client receives status
    401.  When verification itself fails (bad signature, wrong algorithm,
    expired or malformed token) the message is the fixed generic one of the
    middleware, whatever the cause, and the cause is written to the
    console only.  When the token verifies but has the wrong type, the
    message is the fixed type message of the middleware. *)
Theorem rejection_messages (J : Jose) (now : Z) (c : Context) (k : TokenKind)
    (config : JWTMiddlewareConfig) (mw : MiddlewareHandler) (next : Next)
    (rest : list MiddlewareHandler) (w : World) (token : string) :
  Guard J now c k config mw ->
  extractToken c = Some token -> token <> "" ->
  (forall w1 e,
      verifyToken J token (jwtConfig_of config) now w = (w1, Throw e) ->
      mw c next w = (add_console (console_label k) e w1,
                     Throw (HTTPException 401 (generic_message k)))
      /\ status (serve (mw :: rest) c w) = 401
      /\ body_message (serve (mw :: rest) c w) = Some (generic_message k))
  /\
  (forall w1 p,
      verifyToken J token (jwtConfig_of config) now w = (w1, Ok p) ->
      type p <> Some (CStr (required_type k)) ->
      mw c next w = (w1, Throw (HTTPException 401 (type_message k)))
      /\ status (serve (mw :: rest) c w) = 401
      /\ body_message (serve (mw :: rest) c w) = Some (type_message k)).
Proof.
  intros G Hx Ht. split.
  - intros w1 e Hv.
    assert (Hrun : forall nx,
               mw c nx w = (add_console (console_label k) e w1,
                            Throw (HTTPException 401 (generic_message k)))).
    { intros nx. rewrite (guard_run_token _ _ _ _ _ _ nx _ G Hx Ht).
      apply checkToken_verify_fails. assumption. }
    split; [apply Hrun|].
    rewrite (serve_throw _ _ _ _ _ _ (Hrun _)). apply onError_401.
  - intros w1 p Hv Hne.
    assert (Hrun : forall nx,
               mw c nx w = (w1, Throw (HTTPException 401 (type_message k)))).
    { intros nx. rewrite (guard_run_token _ _ _ _ _ _ nx _ G Hx Ht).
      eapply checkToken_wrong_type; eassumption. }
    split; [apply Hrun|].
    rewrite (serve_throw _ _ _ _ _ _ (Hrun _)). apply onError_401.
Qed.

Lemma verifyToken_key_absent (J : Jose) token config now w :
  key_absent config ->
  verifyToken J token (jwtConfig_of config) now w
  = (w, Throw (Error "Error" (key_required_message (mw_algorithm config)))).
Proof.
  unfold key_absent, verifyToken, jwtConfig_of; cbn [algorithm secret publicKey].
  destruct (mw_algorithm config); intros Habs; unfold bind;
    rewrite (required_absent _ _ _ Habs); reflexivity.
Qed.

(** C6, as the code has it.  When the key the configured algorithm needs
    is absent and a request with a bearer token reaches a token
    middleware, [verifyToken] throws its own configuration error before
    any key is imported or any signature checked; the middleware writes
    that error to the console and throws HTTPException 401 with its
    generic message, so the client receives status 401, the same response
    as for a token that fails verification. *)
Theorem missing_key_is_401 (J : Jose) (now : Z) (c : Context) (k : TokenKind)
    (config : JWTMiddlewareConfig) (mw : MiddlewareHandler) (next : Next)
    (rest : list MiddlewareHandler) (w : World) (token : string) :
  Guard J now c k config mw ->
  extractToken c = Some token -> token <> "" ->
  key_absent config ->
  mw c next w
  = (add_console (console_label k)
       (Error "Error" (key_required_message (mw_algorithm config))) w,
     Throw (HTTPException 401 (generic_message k)))
  /\ crypto (fst (mw c next w)) = crypto w
  /\ status (serve (mw :: rest) c w) = 401
  /\ body_message (serve (mw :: rest) c w) = Some (generic_message k).
Proof.
  intros G Hx Ht Habs.
  assert (Hrun : forall nx,
             mw c nx w
             = (add_console (console_label k)
                  (Error "Error" (key_required_message (mw_algorithm config))) w,
                Throw (HTTPException 401 (generic_message k)))).
  { intros nx. rewrite (guard_run_token _ _ _ _ _ _ nx _ G Hx Ht).
    apply checkToken_verify_fails. apply verifyToken_key_absent. assumption. }
  split; [apply Hrun|]. split; [rewrite Hrun; reflexivity|].
  rewrite (serve_throw _ _ _ _ _ _ (Hrun _)). apply onError_401.
Qed.

(* ===================================================================== *)
(** ** The token codec *)
(* ===================================================================== *)

Lemma throws_bind {A B} (m : M A) (k : A -> M B) (w : World) :
  (forall a w1, throws (k a) w1) -> throws (bind m k) w.
Proof.
  intros Hk. unfold throws, bind. destruct (m w) as [w1 [a|e]].
  - apply Hk.
  - exists w1, e. reflexivity.
Qed.

Lemma alg_name_inj (a b : Algorithm) : alg_name a = alg_name b -> a = b.
Proof. destruct a, b; simpl; intros H; try reflexivity; discriminate H. Qed.

Lemma find_single_other (b : Algorithm) (h : string) :
  h <> alg_name b ->
  find (fun a => String.eqb (alg_name a) h) [b] = None.
Proof.
  intros Hne. simpl.
  destruct (String.eqb_spec (alg_name b) h) as [Heq|]; [|reflexivity].
  exfalso. apply Hne. symmetry. assumption.
Qed.

Lemma find_single_same (b : Algorithm) :
  find (fun a => String.eqb (alg_name a) (alg_name b)) [b] = Some b.
Proof. simpl. rewrite String.eqb_refl. reflexivity. Qed.

(** A token whose header names another algorithm than the single allowed
    one is refused before its signature is looked at. *)
Lemma jwtVerify_alg_not_allowed (J : Jose) token jws key (b : Algorithm) now w :
  parse_compact J token = Some jws ->
  jws_alg jws <> alg_name b ->
  jwtVerify J token key [b] now w
  = (add_crypto (OpJwtVerify token) w,
     Throw (Error "JOSEAlgNotAllowed" "alg Header Parameter value not allowed")).
Proof.
  intros Hp Hne. unfold jwtVerify, bind, record_op, modify.
  rewrite Hp, (find_single_other _ _ Hne). reflexivity.
Qed.

Lemma verifyToken_alg_mismatch (J : Jose) token jws config now w :
  parse_compact J token = Some jws ->
  jws_alg jws <> alg_name (algorithm config) ->
  throws (verifyToken J token config now) w.
Proof.
  intros Hp Hne. unfold verifyToken.
  destruct (algorithm config);
    (apply throws_bind; intros s w1; apply throws_bind; intros key w2;
     eexists; eexists; eapply jwtVerify_alg_not_allowed; eassumption).
Qed.

Lemma generateAccessToken_eq (J : Jose) payload config now :
  generateAccessToken J payload config now
  = generateToken J "access" (default "15m" (accessTokenExpiry config))
      payload config now.
Proof. reflexivity. Qed.

Lemma generateRefreshToken_eq (J : Jose) payload config now :
  generateRefreshToken J payload config now
  = generateToken J "refresh" (default "7d" (refreshTokenExpiry config))
      payload config now.
Proof. reflexivity. Qed.

Lemma issued_claims_plain user tokenType now d :
  plain_payload (issued_claims user tokenType now d) = true.
Proof. reflexivity. Qed.

Lemma check_exp_ok (p q : TokenPayload) (now : Z) :
  check_exp p now = Ok q ->
  q = p /\ (exp p = None \/ exists e, exp p = Some (CNum e) /\ now < e).
Proof.
  unfold check_exp.
  destruct (exp p) as [[s|e|b| |j]|]; try discriminate.
  - destruct (Z.leb_spec e now); [discriminate|].
    intros [= <-]. split; [reflexivity|]. right. exists e.
    split; [reflexivity | assumption].
  - intros [= <-]. split; [reflexivity | left; reflexivity].
Qed.

Lemma validate_claims_ok (p q : TokenPayload) (now : Z) :
  validate_claims p now = Ok q ->
  q = p /\ (exp p = None \/ exists e, exp p = Some (CNum e) /\ now < e).
Proof.
  unfold validate_claims.
  destruct (iat p) as [[]|]; try discriminate;
    (destruct (nbf p) as [[s|n|b| |j]|]; try discriminate;
     try apply check_exp_ok;
     destruct (now <? n); [discriminate | apply check_exp_ok]).
Qed.

(** What a successful [jwtVerify] with a single allowed algorithm has
    checked: the token parses, its header names the allowed algorithm, the
    signature passes the check of that algorithm under the given key, and
    the claims are valid. *)
Lemma jwtVerify_ok (J : Jose) token key (b : Algorithm) now w w' p :
  jwtVerify J token key [b] now w = (w', Ok p) ->
  exists jws,
    parse_compact J token = Some jws
    /\ jws_alg jws = alg_name b
    /\ jws_verify J b key (jws_payload jws) (jws_signature jws) = true
    /\ validate_claims (jws_payload jws) now = Ok p.
Proof.
  unfold jwtVerify, bind, record_op, modify, throw, lift.
  destruct (parse_compact J token) as [jws|]; [|discriminate].
  cbn [find].
  destruct (String.eqb_spec (alg_name b) (jws_alg jws)) as [Heq|]; [|discriminate].
  destruct (jws_verify J b key (jws_payload jws) (jws_signature jws)) eqn:Hv;
    [|discriminate].
  intros [= _ Hc]. exists jws. repeat split; try assumption.
  symmetry. assumption.
Qed.

Lemma verifyToken_ok (J : Jose) token config now w w' p :
  verifyToken J token config now w = (w', Ok p) ->
  exists jws key,
    parse_compact J token = Some jws
    /\ jws_alg jws = alg_name (algorithm config)
    /\ jws_verify J (algorithm config) key (jws_payload jws) (jws_signature jws)
       = true
    /\ validate_claims (jws_payload jws) now = Ok p.
Proof.
  unfold verifyToken. intros H.
  destruct (algorithm config);
    (apply bind_ok_inv in H; destruct H as (s & w1 & _ & H);
     apply bind_ok_inv in H; destruct H as (key & w2 & _ & H);
     apply jwtVerify_ok in H; destruct H as (jws & H);
     exists jws, key; exact H).
Qed.

(** A generator that returns a token has written the configured algorithm
    into the header and the issued claims into the payload. *)
Lemma generateToken_ok (J : Jose) tokenType expiry user config now w w1 token :
  generateToken J tokenType expiry user config now w = (w1, Ok token) ->
  exists d sig,
    secs J expiry = Some d
    /\ token = compact J {| jws_alg := alg_name (algorithm config);
                            jws_payload := issued_claims user tokenType now d;
                            jws_signature := sig |}.
Proof.
  unfold generateToken. intros H.
  destruct (algorithm config);
    (apply bind_ok_inv in H; destruct H as (s & w2 & _ & H);
     apply bind_ok_inv in H; destruct H as (key & w3 & _ & H);
     apply bind_ok_inv in H; destruct H as (b & w4 & Hb & H);
     unfold lift, setExpirationTime in Hb;
     destruct (secs J expiry) as [d|]; [|discriminate Hb];
     injection Hb as _ <-;
     unfold sign in H; cbn [protectedHeader setProtectedHeader] in H;
     apply bind_ok_inv in H; destruct H as (u & w5 & _ & H);
     apply bind_ok_inv in H; destruct H as (sig & w6 & _ & H);
     injection H as _ <-;
     exists d, sig; split; reflexivity).
Qed.

(** C1.  Algorithm pinning: a token whose header declares algorithm A
    never passes [verifyToken] under a config for another algorithm B,
    whatever its signature and whatever key material the config holds.  In
    particular a token with an HS256 header, signed by HMAC under any
    secret bytes (such as the bytes of the RSA or EC public key), is
    rejected by a verifier configured for RS256 or ES256; and a token
    issued by one of the generators under algorithm A is rejected by every
    verifier configured for another algorithm. *)
Theorem algorithm_pinning (J : Jose) :
  (forall (A B : Algorithm) token jws config now w,
      parse_compact J token = Some jws ->
      jws_alg jws = alg_name A ->
      A <> B ->
      algorithm config = B ->
      throws (verifyToken J token config now) w)
  /\
  (JoseLaws J ->
   forall (B : Algorithm) (keyBytes : string) p sig config now w,
      B <> HS256 ->
      algorithm config = B ->
      plain_payload p = true ->
      jws_sign J HS256 (KeyBytes keyBytes) p = Done sig ->
      throws (verifyToken J
                (compact J {| jws_alg := alg_name HS256; jws_payload := p;
                              jws_signature := sig |})
                config now) w)
  /\
  (JoseLaws J ->
   forall user signer verifier issued now w w1 w' token,
      generateAccessToken J user signer issued w = (w1, Ok token)
      \/ generateRefreshToken J user signer issued w = (w1, Ok token) ->
      algorithm signer <> algorithm verifier ->
      throws (verifyToken J token verifier now) w').
Proof.
  split; [|split].
  - intros A B token jws config now w Hp Ha Hne Hb.
    eapply verifyToken_alg_mismatch; [eassumption|].
    rewrite Ha, Hb. intros Heq. apply Hne. apply alg_name_inj. assumption.
  - intros L B keyBytes p sig config now w Hne Hb Hplain _.
    eapply verifyToken_alg_mismatch.
    + apply (parse_compact_compact J L). assumption.
    + cbn [jws_alg]. rewrite Hb. intros Heq. apply Hne. symmetry.
      apply alg_name_inj. assumption.
  - intros L user signer verifier issued now w w1 w' token Hgen Hne.
    assert (Htok : exists ty d sig,
               token = compact J {| jws_alg := alg_name (algorithm signer);
                                    jws_payload := issued_claims user ty issued d;
                                    jws_signature := sig |}).
    { destruct Hgen as [Hgen | Hgen];
        [rewrite generateAccessToken_eq in Hgen
        | rewrite generateRefreshToken_eq in Hgen];
        apply generateToken_ok in Hgen; destruct Hgen as (d & sig & _ & ->);
        eexists; eexists; eexists; reflexivity. }
    destruct Htok as (ty & d & sig & ->).
    eapply verifyToken_alg_mismatch.
    + apply (parse_compact_compact J L). apply issued_claims_plain.
    + cbn [jws_alg]. intros Heq. apply Hne. apply alg_name_inj. assumption.
Qed.

Lemma validate_claims_expired (p : TokenPayload) (now e : Z) :
  exp p = Some (CNum e) -> e <= now ->
  exists err, validate_claims p now = Throw err.
Proof.
  intros He Hle.
  assert (Hx : check_exp p now
               = Throw (Error "JWTExpired" "exp claim timestamp check failed")).
  { unfold check_exp. rewrite He.
    destruct (Z.leb_spec e now); [reflexivity | lia]. }
  unfold validate_claims. rewrite Hx.
  destruct (iat p) as [[]|]; try (eexists; reflexivity);
    (destruct (nbf p) as [[s|n|b| |j]|]; try (eexists; reflexivity);
     destruct (now <? n); eexists; reflexivity).
Qed.

Lemma jwtVerify_expired (J : Jose) token jws key algs now e w :
  parse_compact J token = Some jws ->
  exp (jws_payload jws) = Some (CNum e) -> e <= now ->
  throws (jwtVerify J token key algs now) w.
Proof.
  intros Hp He Hle. unfold throws, jwtVerify, bind, record_op, modify, throw, lift.
  rewrite Hp.
  destruct (find _ algs) as [a|]; [|eexists; eexists; reflexivity].
  destruct (jws_verify J a key _ _); [|eexists; eexists; reflexivity].
  destruct (validate_claims_expired _ _ _ He Hle) as [err Herr].
  rewrite Herr. eexists; eexists; reflexivity.
Qed.

(** C3.  Expiry: a token whose [exp] claim is at or before the clock
    reading at verification never passes [verifyToken], whether or not its
    signature is valid, under every config (so under each of the three
    algorithms and any key); and whenever [verifyToken] succeeds on a
    token that carries [exp], that [exp] lies strictly in the future. *)
Theorem expired_token_rejected (J : Jose) :
  (forall (token : string) (jws : JWS) (config : JWTConfig) (now e : Z)
          (w : World),
      parse_compact J token = Some jws ->
      exp (jws_payload jws) = Some (CNum e) ->
      e <= now ->
      throws (verifyToken J token config now) w)
  /\
  (forall (token : string) (config : JWTConfig) (now : Z) (w w' : World)
          (p : TokenPayload),
      verifyToken J token config now w = (w', Ok p) ->
      exp p = None \/ exists e, exp p = Some (CNum e) /\ now < e).
Proof.
  split.
  - intros token jws config now e w Hp He Hle. unfold verifyToken.
    destruct (algorithm config);
      (apply throws_bind; intros s w1; apply throws_bind; intros key w2;
       eapply jwtVerify_expired; eassumption).
  - intros token config now w w' p Hv.
    apply verifyToken_ok in Hv. destruct Hv as (jws & key & _ & _ & _ & Hc).
    apply validate_claims_ok in Hc. destruct Hc as [-> Hexp]. exact Hexp.
Qed.

Lemma validate_issued user tokenType now d t :
  t < now + d ->
  validate_claims (issued_claims user tokenType now d) t
  = Ok (issued_claims user tokenType now d).
Proof.
  intros Hlt. unfold validate_claims, check_exp; cbn [iat nbf exp issued_claims].
  assert (Hb : (now + d <=? t) = false) by (apply Z.leb_gt; assumption).
  rewrite Hb. reflexivity.
Qed.

(** Signing with a key and verifying under the matching key, for the
    claims the generators issue. *)
Lemma sign_then_verify (J : Jose) (L : JoseLaws J) (a : Algorithm)
    (skey vkey : Key (CryptoKey J)) user tokenType expiry now d t w w' :
  (forall p, exists s, jws_sign J a skey p = Done s
                       /\ jws_verify J a vkey p s = true) ->
  secs J expiry = Some d ->
  t < now + d ->
  exists w1 token,
    bind (lift (setExpirationTime J expiry now
                  (setIssuedAt now
                     (setProtectedHeader a
                        (new_SignJWT
                           {| sub := Some (CStr (user_sub user));
                              email := Some (CStr (user_email user));
                              iat := None; exp := None; nbf := None;
                              type := Some (CStr tokenType) |})))))
         (fun b => sign J skey b) w
    = (w1, Ok token)
    /\ exists w2,
        jwtVerify J token vkey [a] t w'
        = (w2, Ok (issued_claims user tokenType now d)).
Proof.
  intros Hkeys Hsecs Hlt.
  destruct (Hkeys (issued_claims user tokenType now d)) as (s & Hs & Hv).
  unfold bind at 1, lift, setExpirationTime. rewrite Hsecs.
  cbn [setIssuedAt setProtectedHeader new_SignJWT protectedHeader claims
       sub email iat exp nbf type].
  unfold sign; cbn [protectedHeader claims].
  fold (issued_claims user tokenType now d).
  unfold bind, record_op, modify, lift_lib. rewrite Hs. unfold ret.
  eexists; eexists; split; [reflexivity|].
  unfold jwtVerify, bind, record_op, modify, lift.
  rewrite (parse_compact_compact J L) by apply issued_claims_plain.
  cbn [jws_alg jws_payload jws_signature].
  rewrite find_single_same, Hv, (validate_issued _ _ _ _ _ Hlt).
  eexists; reflexivity.
Qed.

Lemma generate_then_verify (J : Jose) (L : JoseLaws J) (a : Algorithm)
    (signer verifier : JWTConfig) user tokenType expiry now d t w w' :
  valid_keys J a signer verifier ->
  secs J expiry = Some d ->
  t < now + d ->
  exists w1 token,
    generateToken J tokenType expiry user signer now w = (w1, Ok token)
    /\ exists w2,
        verifyToken J token verifier t w'
        = (w2, Ok (issued_claims user tokenType now d)).
Proof.
  intros (Hs & Hv & Hkeys) Hsecs Hlt.
  unfold generateToken, verifyToken. rewrite Hs, Hv.
  destruct a.
  - destruct Hkeys as (s & Hne & Hok & Hsec & Hsec').
    unfold bind at 1. rewrite (required_present _ _ s _ Hsec Hne).
    unfold bind at 1, getHS256Key at 1, bind at 1, record_op, modify, ret.
    destruct (sign_then_verify J L HS256 (KeyBytes s) (KeyBytes s) user tokenType
                expiry now d t (add_crypto (OpEncodeSecret s) w)
                (add_crypto (OpEncodeSecret s) w')
                (fun p => hmac_sign_verify J L s p Hok) Hsecs Hlt)
      as (w1 & token & Hgen & w2 & Hver).
    exists w1, token. split; [exact Hgen|].
    exists w2. unfold bind at 1. rewrite (required_present _ _ s _ Hsec' Hne).
    unfold bind at 1, getHS256Key, bind at 1, record_op, modify, ret.
    exact Hver.
  - destruct Hkeys as (priv & pub & sk & pk & Hpriv & Hpub & Hcpriv & Hcpub
                       & Hisk & Hipk & Hpair).
    unfold bind at 1. rewrite (required_present _ _ priv _ Hcpriv Hpriv).
    unfold bind at 1, importPrivateKey at 1, decodeBase64Key, bind at 1,
      record_op, modify, bind at 1, lift_lib at 1.
    rewrite Hisk. unfold ret at 1, ret at 1.
    destruct (sign_then_verify J L RS256 (KeyObject sk) (KeyObject pk) user
                tokenType expiry now d t
                (add_crypto (OpImportPKCS8 (base64_utf8 J priv)) w)
                (add_crypto (OpImportSPKI (base64_utf8 J pub)) w')
                (fun p => pair_sign_verify J L RS256 sk pk p
                            ltac:(discriminate) Hpair) Hsecs Hlt)
      as (w1 & token & Hgen & w2 & Hver).
    exists w1, token. split; [exact Hgen|].
    exists w2. unfold bind at 1. rewrite (required_present _ _ pub _ Hcpub Hpub).
    unfold bind at 1, importPublicKey, decodeBase64Key, bind at 1,
      record_op, modify, bind at 1, lift_lib.
    rewrite Hipk. unfold ret at 1, ret at 1.
    exact Hver.
  - destruct Hkeys as (priv & pub & sk & pk & Hpriv & Hpub & Hcpriv & Hcpub
                       & Hisk & Hipk & Hpair).
    unfold bind at 1. rewrite (required_present _ _ priv _ Hcpriv Hpriv).
    unfold bind at 1, importPrivateKey at 1, decodeBase64Key, bind at 1,
      record_op, modify, bind at 1, lift_lib at 1.
    rewrite Hisk. unfold ret at 1, ret at 1.
    destruct (sign_then_verify J L ES256 (KeyObject sk) (KeyObject pk) user
                tokenType expiry now d t
                (add_crypto (OpImportPKCS8 (base64_utf8 J priv)) w)
                (add_crypto (OpImportSPKI (base64_utf8 J pub)) w')
                (fun p => pair_sign_verify J L ES256 sk pk p
                            ltac:(discriminate) Hpair) Hsecs Hlt)
      as (w1 & token & Hgen & w2 & Hver).
    exists w1, token. split; [exact Hgen|].
    exists w2. unfold bind at 1. rewrite (required_present _ _ pub _ Hcpub Hpub).
    unfold bind at 1, importPublicKey, decodeBase64Key, bind at 1,
      record_op, modify, bind at 1, lift_lib.
    rewrite Hipk. unfold ret at 1, ret at 1.
    exact Hver.
Qed.

(** C4.  Round trip: for each of the three algorithms and key material
    valid for it, a token made by [generateAccessToken] (resp.
    [generateRefreshToken]) from [sub] and [email] verifies under the
    matching verification key at every clock reading before its expiry,
    and [verifyToken] returns the given [sub] and [email], the type access
    (resp. refresh), [iat] stamped with the issue time and [exp] with the
    issue time plus the configured life time. *)
Theorem round_trip (J : Jose) (L : JoseLaws J) (a : Algorithm)
    (signer verifier : JWTConfig) (user : UserClaims) (now t : Z)
    (w w' : World) :
  valid_keys J a signer verifier ->
  (forall d,
      secs J (default "15m" (accessTokenExpiry signer)) = Some d ->
      t < now + d ->
      exists w1 token,
        generateAccessToken J user signer now w = (w1, Ok token)
        /\ exists w2,
            verifyToken J token verifier t w'
            = (w2, Ok (issued_claims user "access" now d)))
  /\
  (forall d,
      secs J (default "7d" (refreshTokenExpiry signer)) = Some d ->
      t < now + d ->
      exists w1 token,
        generateRefreshToken J user signer now w = (w1, Ok token)
        /\ exists w2,
            verifyToken J token verifier t w'
            = (w2, Ok (issued_claims user "refresh" now d))).
Proof.
  intros Hkeys. split; intros d Hsecs Hlt.
  - rewrite generateAccessToken_eq.
    apply generate_then_verify with (a := a); assumption.
  - rewrite generateRefreshToken_eq.
    apply generate_then_verify with (a := a); assumption.
Qed.

(* ===================================================================== *)
(** ** The request logger *)
(* ===================================================================== *)

Lemma saveLog_resolves (db : D1Database) (log : RequestLog) (w : World) :
  exists w', saveLog db log w = (w', Ok tt) /\ same_outcome w w'.
Proof.
  unfold saveLog, try_catch, console_error, modify.
  destruct (run_insert db log) as [[]|e]; eexists; split; try reflexivity;
    repeat split.
Qed.

Lemma same_outcome_refl (w : World) : same_outcome w w.
Proof. repeat split. Qed.

Lemma same_outcome_trans (w1 w2 w3 : World) :
  same_outcome w1 w2 -> same_outcome w2 w3 -> same_outcome w1 w3.
Proof.
  unfold same_outcome. intros (A1 & A2 & A3 & A4 & A5) (B1 & B2 & B3 & B4 & B5).
  repeat split; congruence.
Qed.

Lemma same_outcome_sym (w1 w2 : World) :
  same_outcome w1 w2 -> same_outcome w2 w1.
Proof.
  unfold same_outcome. intros (A1 & A2 & A3 & A4 & A5). repeat split; congruence.
Qed.

(** The [finally] block always completes and changes nothing the client
    can see. *)
Lemma finally_block_local requestId startTime isoTime endTime
    (c : Context) st msg userId tokenType (w : World) :
  exists w',
    finally_block requestId startTime isoTime endTime c st msg userId tokenType w
    = (w', Ok tt)
    /\ same_outcome w w'.
Proof.
  unfold finally_block. destruct (DB (env c)) as [db|].
  - unfold waitUntil.
    destruct (saveLog_resolves db
                (make_log requestId startTime isoTime endTime c st msg userId tokenType) w)
      as (w1 & Hsave & Hsame).
    rewrite Hsave. eexists. split; [reflexivity|].
    destruct Hsame as (A1 & A2 & A3 & A4 & A5). repeat split; assumption.
  - exists w. split; [reflexivity | apply same_outcome_refl].
Qed.

Lemma finally_block_with_DB requestId startTime isoTime endTime
    (c : Context) (db db' : option D1Database) st msg userId tokenType (w : World) :
  exists w2 w3,
    finally_block requestId startTime isoTime endTime (with_DB db c)
      st msg userId tokenType w = (w2, Ok tt)
    /\ finally_block requestId startTime isoTime endTime (with_DB db' c)
         st msg userId tokenType w = (w3, Ok tt)
    /\ same_outcome w2 w3.
Proof.
  destruct (finally_block_local requestId startTime isoTime endTime
              (with_DB db c) st msg userId tokenType w) as (w2 & H2 & S2).
  destruct (finally_block_local requestId startTime isoTime endTime
              (with_DB db' c) st msg userId tokenType w) as (w3 & H3 & S3).
  exists w2, w3. split; [assumption|]. split; [assumption|].
  eapply same_outcome_trans; [apply same_outcome_sym; exact S2 | exact S3].
Qed.

(** C8.  Logging isolation: whatever database is bound (one whose INSERT
    succeeds, one whose INSERT fails, or none), the logger hands the
    request on, returns or rethrows exactly what the rest of the chain
    produced, and leaves the same response and context variables; the log
    write itself never rejects, its failure ends in the console. *)
Theorem logging_isolation (requestId : string) (startTime : Z)
    (isoTime : string) (endTime : Z) (c : Context) (next : Next) (w : World)
    (db db' : option D1Database) :
  let logger := requestLogger requestId startTime isoTime endTime in
  snd (logger (with_DB db c) next w) = snd (logger (with_DB db' c) next w)
  /\ same_outcome (fst (logger (with_DB db c) next w))
                  (fst (logger (with_DB db' c) next w))
  /\ (forall d log w0, snd (saveLog d log w0) = Ok tt)
  /\ (forall rest,
        (forall w0, dispatch rest (with_DB db c) w0
                    = dispatch rest (with_DB db' c) w0) ->
        serve (logger :: rest) (with_DB db c) w
        = serve (logger :: rest) (with_DB db' c) w).
Proof.
  cbv zeta. split; [|split; [|split]]; cycle 3.
  { intros rest Hrest. unfold serve. cbn [dispatch].
    unfold requestLogger, bind, modify.
    rewrite <- (Hrest (set_requestId requestId w)).
    destruct (dispatch rest (with_DB db c) (set_requestId requestId w))
      as [w1 [[]|e]].
    - destruct (finally_block_with_DB requestId startTime isoTime endTime c db db'
                  (status (res w1)) None
                  match var_jwtPayload w1 with
                  | Some payload => or_null (sub payload) | None => None end
                  match var_jwtPayload w1 with
                  | Some payload => or_null (type payload) | None => None end w1)
        as (w2 & w3 & H2 & H3 & S).
      rewrite H2, H3. cbn [fst]. apply S.
    - destruct (finally_block_with_DB requestId startTime isoTime endTime c db db'
                  match e with HTTPException s _ => s | Error _ _ => 500 end
                  (Some (exn_message e)) None None w1)
        as (w2 & w3 & H2 & H3 & S).
      rewrite H2, H3. reflexivity. }
  - unfold requestLogger, bind, modify.
    destruct (next (set_requestId requestId w)) as [w1 [[]|e]].
    + destruct (finally_block_with_DB requestId startTime isoTime endTime c db db'
                  (status (res w1)) None
                  match var_jwtPayload w1 with
                  | Some payload => or_null (sub payload) | None => None end
                  match var_jwtPayload w1 with
                  | Some payload => or_null (type payload) | None => None end w1)
        as (w2 & w3 & H2 & H3 & S).
      rewrite H2, H3. reflexivity.
    + destruct (finally_block_with_DB requestId startTime isoTime endTime c db db'
                  match e with HTTPException s _ => s | Error _ _ => 500 end
                  (Some (exn_message e)) None None w1)
        as (w2 & w3 & H2 & H3 & S).
      rewrite H2, H3. reflexivity.
  - unfold requestLogger, bind, modify.
    destruct (next (set_requestId requestId w)) as [w1 [[]|e]].
    + destruct (finally_block_with_DB requestId startTime isoTime endTime c db db'
                  (status (res w1)) None
                  match var_jwtPayload w1 with
                  | Some payload => or_null (sub payload) | None => None end
                  match var_jwtPayload w1 with
                  | Some payload => or_null (type payload) | None => None end w1)
        as (w2 & w3 & H2 & H3 & S).
      rewrite H2, H3. exact S.
    + destruct (finally_block_with_DB requestId startTime isoTime endTime c db db'
                  match e with HTTPException s _ => s | Error _ _ => 500 end
                  (Some (exn_message e)) None None w1)
        as (w2 & w3 & H2 & H3 & S).
      rewrite H2, H3. exact S.
  - intros d log w0. destruct (saveLog_resolves d log w0) as (w4 & H4 & _).
    rewrite H4. reflexivity.
Qed.

(* ===================================================================== *)
(** ** The password routes *)
(* ===================================================================== *)

Lemma clamp_number (n : Z) :
  JS.math_min (JS.math_max (JS.Fin n) (JS.Fin 1000)) (JS.Fin 100000)
  = JS.Fin (Z.min (Z.max n 1000) 100000).
Proof. reflexivity. Qed.

(** For a query parameter that parses to a number, and when the parameter
    is absent, /login clamps into [1000, 100000]. *)
Lemma login_safeIterations_number (c : Context) :
  (req_query c "iterations" = None \/ req_query c "iterations" = Some ""
   \/ exists p n, req_query c "iterations" = Some p /\ JS.parseInt p = JS.Fin n) ->
  exists m, login_safeIterations c = JS.Fin m /\ 1000 <= m <= 100000.
Proof.
  unfold login_safeIterations.
  intros [Hq | [Hq | (p & n & Hq & Hp)]]; rewrite Hq.
  - exists 100000. split; [reflexivity | lia].
  - exists 100000. split; [reflexivity | lia].
  - destruct (JS.truthy (Some p)).
    + rewrite Hp, clamp_number. eexists; split; [reflexivity | lia].
    + exists 100000. split; [reflexivity | lia].
Qed.

(** The clamp never lets a count above 100000 through. *)
Lemma login_safeIterations_upper (c : Context) :
  JS.gt (login_safeIterations c) (JS.Fin 100000) = false.
Proof.
  unfold login_safeIterations.
  destruct (req_query c "iterations") as [p|]; [|reflexivity].
  destruct (JS.truthy (Some p)); [|reflexivity].
  destruct (JS.parseInt p) as [|n]; [reflexivity|].
  rewrite clamp_number. simpl. apply Z.ltb_ge. lia.
Qed.

(** /hash clamps every numeric body member into [1000, 100000]. *)
Lemma hash_iterations_range (body_iterations : option Z) :
  exists m, hash_iterations body_iterations = JS.Fin m /\ 1000 <= m <= 100000.
Proof.
  unfold hash_iterations. rewrite clamp_number.
  eexists; split; [reflexivity | lia].
Qed.

(** C9 at the request POST /auth/password/login?iterations=abc.
    [parseInt] yields NaN, which passes through [Math.max] and [Math.min]
    unchanged: the count handed to PBKDF2 is NaN, not a value of
    [1000, 100000], and the request ends in an unhandled error (status
    500) instead of a hash computed with a clamped count. *)
Theorem login_iterations_not_clamped (pbkdf2 : string -> string -> Z -> string) :
  login_safeIterations (login_request "abc") = JS.NaN
  /\ password_login pbkdf2 (login_request "abc") "nobody@example.com" "pw"
       "salt" 0 [] empty_world
     = (add_crypto (OpPBKDF2 JS.NaN) empty_world,
        Throw (Error "TypeError" "iterations is not a valid unsigned long"))
  /\ status (onError (Error "TypeError" "iterations is not a valid unsigned long"))
     = 500.
Proof. repeat split. Qed.

(* ===================================================================== *)
(** ** The properties on concrete requests *)
(* ===================================================================== *)

Import Sample.

(** An HS256 token, a token forged with the RSA public key as HMAC
    secret, and the refresh token issued under HS256 are all refused by
    the RS256 verifier. *)
Lemma algorithm_pinning_witness :
  throws (verifyToken Toy.jose access_token rs_config presented_at) empty_world
  /\ throws (verifyToken Toy.jose forged_token rs_config presented_at) empty_world
  /\ throws (verifyToken Toy.jose refresh_token rs_config presented_at) empty_world.
Proof.
  split; [|split]; cycle 2.
  { apply (proj2 (proj2 (algorithm_pinning Toy.jose)) ToyFacts.laws user hs_config
             rs_config issued_at presented_at empty_world
             (fst (generateRefreshToken Toy.jose user hs_config issued_at empty_world))
             empty_world refresh_token).
    - right. vm_compute. reflexivity.
    - discriminate. }
  - eapply (proj1 (algorithm_pinning Toy.jose) HS256 RS256).
    + vm_compute. reflexivity.
    + reflexivity.
    + discriminate.
    + reflexivity.
  - apply (proj1 (proj2 (algorithm_pinning Toy.jose)) ToyFacts.laws RS256 "rsa-key"
             (issued_claims user "access" issued_at 900)).
    + discriminate.
    + reflexivity.
    + reflexivity.
    + vm_compute. reflexivity.
Defined.

(** The access token issued at 1000 for 900 seconds is refused at 1900. *)
Lemma expired_token_rejected_witness :
  throws (verifyToken Toy.jose access_token hs_config 1900) empty_world.
Proof.
  eapply (proj1 (expired_token_rejected Toy.jose) access_token _ hs_config 1900 1900).
  - vm_compute. reflexivity.
  - reflexivity.
  - lia.
Defined.

(** With the HS256 secret on both sides, the tokens issued at 1000 verify
    at 1060 and give back the user. *)
Lemma round_trip_witness :
  (exists w1 token,
      generateAccessToken Toy.jose user hs_config issued_at empty_world
      = (w1, Ok token)
      /\ exists w2,
          verifyToken Toy.jose token hs_config presented_at empty_world
          = (w2, Ok (issued_claims user "access" issued_at 900)))
  /\
  (exists w1 token,
      generateRefreshToken Toy.jose user hs_config issued_at empty_world
      = (w1, Ok token)
      /\ exists w2,
          verifyToken Toy.jose token hs_config presented_at empty_world
          = (w2, Ok (issued_claims user "refresh" issued_at 604800))).
Proof.
  assert (Hkeys : valid_keys Toy.jose HS256 hs_config hs_config).
  { split; [reflexivity|]. split; [reflexivity|].
    exists "s3cret". split; [discriminate|]. split; [exact I|].
    split; reflexivity. }
  pose proof (round_trip Toy.jose ToyFacts.laws HS256 hs_config hs_config user
                issued_at presented_at empty_world empty_world Hkeys) as [Ha Hr].
  split.
  - apply (Ha 900); [reflexivity | vm_compute; reflexivity].
  - apply (Hr 604800); [reflexivity | vm_compute; reflexivity].
Defined.

(** A refresh token presented to the HS256 access middleware is answered
    with 401. *)
Lemma type_gating_witness :
  hs256Auth Toy.jose presented_at secretGetter
    (request bindings (bearer refresh_token)) (ret tt) empty_world
  = (fst (verifyToken Toy.jose refresh_token hs_config presented_at empty_world),
     Throw (HTTPException 401 "Invalid token type. Access token required."))
  /\ status (serve [hs256Auth Toy.jose presented_at secretGetter; protected]
               (request bindings (bearer refresh_token)) empty_world) = 401.
Proof.
  eapply (type_gating Toy.jose presented_at
            (request bindings (bearer refresh_token)) AccessKind _ _ (ret tt)
            [protected] empty_world _ refresh_token
            (issued_claims user "refresh" issued_at 604800)
            (guard_hs256Auth _ _ _ secretGetter)).
  - vm_compute. reflexivity.
  - vm_compute. discriminate.
  - vm_compute. reflexivity.
  - reflexivity.
Defined.

(** A correctly signed token without a [type] claim is answered with 401
    by the HS256 refresh middleware. *)
Lemma missing_type_rejected_witness :
  hs256RefreshAuth Toy.jose presented_at secretGetter
    (request bindings (bearer untyped_token)) (ret tt) empty_world
  = (fst (verifyToken Toy.jose untyped_token hs_config presented_at empty_world),
     Throw (HTTPException 401 "Invalid token type. Refresh token required."))
  /\ status (serve [hs256RefreshAuth Toy.jose presented_at secretGetter; protected]
               (request bindings (bearer untyped_token)) empty_world) = 401.
Proof.
  eapply (missing_type_rejected Toy.jose presented_at
            (request bindings (bearer untyped_token)) RefreshKind _ _ (ret tt)
            [protected] empty_world _ untyped_token untyped_claims
            (guard_hs256RefreshAuth _ _ _ secretGetter)).
  - vm_compute. reflexivity.
  - vm_compute. discriminate.
  - vm_compute. reflexivity.
  - discriminate.
Defined.

(** C5 fails for a wrong token type: the refresh token presented to the
    access middleware is a verification failure, yet the body does not
    carry the generic message but names the cause. *)
Lemma generic_message_counterexample :
  let r := serve [hs256Auth Toy.jose presented_at secretGetter; protected]
             (request bindings (bearer refresh_token)) empty_world in
  snd (verifyToken Toy.jose refresh_token hs_config presented_at empty_world)
  = Ok (issued_claims user "refresh" issued_at 604800)
  /\ status r = 401
  /\ body_message r = Some "Invalid token type. Access token required."
  /\ body_message r <> Some "Invalid or expired token".
Proof.
  cbv zeta. split; [vm_compute; reflexivity|].
  split; [vm_compute; reflexivity|].
  split; [vm_compute; reflexivity|].
  vm_compute. discriminate.
Qed.

(** The messages on two failing requests: a token that does not parse and
    a token of the wrong type. *)
Lemma rejection_messages_witness :
  body_message (serve [hs256Auth Toy.jose presented_at secretGetter; protected]
                  (request bindings (bearer "garbage")) empty_world)
  = Some "Invalid or expired token"
  /\ body_message (serve [hs256Auth Toy.jose presented_at secretGetter; protected]
                     (request bindings (bearer refresh_token)) empty_world)
     = Some "Invalid token type. Access token required.".
Proof.
  split.
  - assert (Hx : extractToken (request bindings (bearer "garbage")) = Some "garbage")
      by reflexivity.
    assert (Ht : "garbage" <> "") by discriminate.
    destruct (rejection_messages Toy.jose presented_at
                (request bindings (bearer "garbage")) AccessKind _ _ (ret tt)
                [protected] empty_world "garbage"
                (guard_hs256Auth _ _ _ secretGetter) Hx Ht) as [Hfail _].
    apply (Hfail (add_crypto (OpJwtVerify "garbage")
                    (add_crypto (OpEncodeSecret "s3cret") empty_world))
                 (Error "JWSInvalid" "Invalid Compact JWS")).
    reflexivity.
  - assert (Hx : extractToken (request bindings (bearer refresh_token))
                 = Some refresh_token) by (vm_compute; reflexivity).
    assert (Ht : refresh_token <> "") by (vm_compute; discriminate).
    destruct (rejection_messages Toy.jose presented_at
                (request bindings (bearer refresh_token)) AccessKind _ _ (ret tt)
                [protected] empty_world refresh_token
                (guard_hs256Auth _ _ _ secretGetter) Hx Ht) as [_ Htype].
    apply (Htype (fst (verifyToken Toy.jose refresh_token hs_config presented_at
                         empty_world))
                 (issued_claims user "refresh" issued_at 604800)).
    + vm_compute. reflexivity.
    + discriminate.
Defined.

(** C6 fails on a worker without its HS256 secret: the request with a
    bearer token is answered with 401, not with a 5xx status. *)
Lemma missing_key_counterexample :
  let r := serve [hs256Auth Toy.jose presented_at secretGetter; protected]
             (request bindings_no_secret (bearer access_token)) empty_world in
  JWT_HS256_SECRET bindings_no_secret = None
  /\ status r = 401
  /\ ~ (500 <= status r).
Proof.
  cbv zeta. split; [reflexivity|].
  assert (Hs : status (serve [hs256Auth Toy.jose presented_at secretGetter; protected]
                         (request bindings_no_secret (bearer access_token))
                         empty_world) = 401) by (vm_compute; reflexivity).
  split; [exact Hs | rewrite Hs; lia].
Qed.

(** On the worker without its HS256 secret the access middleware logs the
    configuration error and answers 401. *)
Lemma missing_key_is_401_witness :
  hs256Auth Toy.jose presented_at secretGetter
    (request bindings_no_secret (bearer access_token)) (ret tt) empty_world
  = (add_console "JWT verification failed:"
       (Error "Error" "Secret is required for HS256") empty_world,
     Throw (HTTPException 401 "Invalid or expired token"))
  /\ status (serve [hs256Auth Toy.jose presented_at secretGetter; protected]
               (request bindings_no_secret (bearer access_token)) empty_world)
     = 401.
Proof.
  assert (Hx : extractToken (request bindings_no_secret (bearer access_token))
               = Some access_token) by (vm_compute; reflexivity).
  assert (Ht : access_token <> "") by (vm_compute; discriminate).
  destruct (missing_key_is_401 Toy.jose presented_at
              (request bindings_no_secret (bearer access_token)) AccessKind _ _
              (ret tt) [protected] empty_world access_token
              (guard_hs256Auth _ _ _ secretGetter) Hx Ht)
    as (Hrun & _ & Hstatus & _).
  - reflexivity.
  - split; [exact Hrun | exact Hstatus].
Defined.

(** A request without Authorization header is answered with 401 and no
    key operation takes place. *)
Lemma bearer_extraction_witness :
  extractToken (request bindings None) = None
  /\ (forall next,
        rs256Auth Toy.jose presented_at (fun c => JWT_RS256_PUBLIC_KEY (env c))
          (request bindings None) next empty_world
        = (empty_world, Throw (HTTPException 401 missing_header_message)))
  /\ status (serve [rs256Auth Toy.jose presented_at
                      (fun c => JWT_RS256_PUBLIC_KEY (env c)); protected]
               (request bindings None) empty_world) = 401.
Proof.
  apply (bearer_extraction Toy.jose presented_at (request bindings None)
           AccessKind _ _ [protected] empty_world
           (guard_rs256Auth _ _ _ (fun c => JWT_RS256_PUBLIC_KEY (env c)))).
  exact I.
Defined.

(** The response to a protected request is the same with a database whose
    INSERT fails and with one whose INSERT succeeds. *)
Lemma logging_isolation_witness :
  serve [requestLogger "id-1" 5 "2026-01-07T00:00:00.000Z" 9;
         hs256Auth Toy.jose presented_at secretGetter; protected]
    (with_DB (Some failing_db) (request bindings (bearer access_token))) empty_world
  = serve [requestLogger "id-1" 5 "2026-01-07T00:00:00.000Z" 9;
           hs256Auth Toy.jose presented_at secretGetter; protected]
      (with_DB (Some working_db) (request bindings (bearer access_token))) empty_world.
Proof.
  apply (proj2 (proj2 (proj2
           (logging_isolation "id-1" 5 "2026-01-07T00:00:00.000Z" 9
              (request bindings (bearer access_token))
              (ret tt) empty_world (Some failing_db) (Some working_db))))).
  intros w0. reflexivity.
Defined.

(* ===================================================================== *)
(** ** Further properties: the token middlewares *)
(* ===================================================================== *)

Lemma split_space_nonempty (s : string) : JS.split_space s <> [].
Proof.
  destruct s as [|ch s]; simpl; [discriminate|].
  destruct (Ascii.eqb ch " "%char); [discriminate|].
  destruct (JS.split_space s); discriminate.
Qed.

Lemma join_space_cons (a b : string) (l : list string) :
  join_space (a :: b :: l) = a ++ String " "%char (join_space (b :: l)).
Proof. reflexivity. Qed.

(** Splitting at spaces and joining with spaces are inverse, and no piece
    of a split contains a space. *)
Lemma join_split_space (s : string) :
  join_space (JS.split_space s) = s
  /\ Forall (fun piece => no_space piece = true) (JS.split_space s).
Proof.
  induction s as [|ch s [IHj IHf]]; simpl.
  - split; [reflexivity | repeat constructor].
  - pose proof (split_space_nonempty s) as Hn.
    destruct (JS.split_space s) as [|piece pieces]; [contradiction|].
    destruct (Ascii.eqb_spec ch " "%char) as [->|Hne].
    + split.
      * rewrite join_space_cons, IHj. reflexivity.
      * constructor; [reflexivity | assumption].
    + split.
      * destruct pieces as [|p2 ps].
        -- simpl in IHj. simpl. rewrite IHj. reflexivity.
        -- rewrite join_space_cons in IHj. rewrite join_space_cons.
           cbn [append]. rewrite IHj. reflexivity.
      * inversion IHf as [|x l Hx Hl]; subst. constructor; [|assumption].
        simpl. destruct (Ascii.eqb_spec ch " "%char); [contradiction|].
        simpl. assumption.
Qed.

Lemma split_space_single (s : string) :
  no_space s = true -> JS.split_space s = [s].
Proof.
  induction s as [|ch s IH]; simpl; [reflexivity|].
  destruct (Ascii.eqb ch " "%char); simpl; [discriminate|].
  intros H. rewrite (IH H). reflexivity.
Qed.

(** X1.  [extractToken] returns a token exactly for a header that is the
    word Bearer, one space, and a token without a space; the token is the
    rest of the header, unchanged. *)
Theorem extractToken_bearer (c : Context) (token : string) :
  extractToken c = Some token
  <-> req_header c "Authorization" = Some ("Bearer " ++ token)
      /\ no_space token = true.
Proof.
  split.
  - intros Hx. apply extractToken_some in Hx. destruct Hx as (h & Hh & Hs).
    destruct (join_split_space h) as [Hj Hf]. rewrite Hs in Hj, Hf.
    split.
    + rewrite Hh, <- Hj. reflexivity.
    + inversion Hf as [|x l _ Hl]; subst. inversion Hl; subst. assumption.
  - intros [Hh Hns]. unfold extractToken. rewrite Hh.
    cbn [JS.truthy append String.eqb Ascii.eqb Bool.eqb negb].
    cbn [JS.split_space append Ascii.eqb Bool.eqb].
    rewrite (split_space_single _ Hns). reflexivity.
Qed.

Lemma extractToken_bearer_witness :
  extractToken (Sample.request Sample.bindings (Sample.bearer "abc.def.ghi"))
  = Some "abc.def.ghi".
Proof.
  apply (proj2 (extractToken_bearer
                  (Sample.request Sample.bindings (Sample.bearer "abc.def.ghi"))
                  "abc.def.ghi")).
  split; reflexivity.
Defined.

Lemma required_ok (v : option string) (msg : string) (w w' : World) (s : string) :
  required v msg w = (w', Ok s) -> v = Some s /\ s <> "" /\ w' = w.
Proof.
  unfold required, ret, throw. destruct v as [x|]; [|discriminate].
  unfold JS.truthy. destruct (String.eqb_spec x ""); simpl; [discriminate|].
  intros [= <- <-]. split; [reflexivity | split; [assumption | reflexivity]].
Qed.

Lemma importPublicKey_ok (J : Jose) b64 a w w' key :
  importPublicKey J b64 a w = (w', Ok key) ->
  exists k, importSPKI J (base64_utf8 J b64) a = Done k /\ key = KeyObject k.
Proof.
  unfold importPublicKey, decodeBase64Key. intros H.
  apply bind_ok_inv in H. destruct H as (u & w1 & _ & H).
  apply bind_ok_inv in H. destruct H as (k & w2 & Hk & H).
  unfold lift_lib in Hk. destruct (importSPKI J (base64_utf8 J b64) a) as [k0|n m];
    [|discriminate Hk].
  injection Hk as _ <-. injection H as _ <-.
  exists k0. split; reflexivity.
Qed.

(** What a successful [verifyToken] has checked, with the key it used. *)
Lemma verifyToken_ok_key (J : Jose) token config now w w' p :
  verifyToken J token config now w = (w', Ok p) ->
  exists jws key,
    verification_key J config key
    /\ parse_compact J token = Some jws
    /\ jws_alg jws = alg_name (algorithm config)
    /\ jws_verify J (algorithm config) key (jws_payload jws) (jws_signature jws)
       = true
    /\ validate_claims (jws_payload jws) now = Ok p.
Proof.
  unfold verifyToken, verification_key. intros H.
  destruct (algorithm config).
  - apply bind_ok_inv in H. destruct H as (s & w1 & Hs & H).
    apply required_ok in Hs. destruct Hs as (Hs & Hne & _).
    apply bind_ok_inv in H. destruct H as (key & w2 & Hk & H).
    unfold getHS256Key, bind, record_op, modify, ret in Hk.
    injection Hk as _ <-.
    apply jwtVerify_ok in H. destruct H as (jws & Hp & Ha & Hv & Hc).
    exists jws, (KeyBytes s). split; [exists s; auto|]. auto.
  - apply bind_ok_inv in H. destruct H as (s & w1 & Hs & H).
    apply required_ok in Hs. destruct Hs as (Hs & Hne & _).
    apply bind_ok_inv in H. destruct H as (key & w2 & Hk & H).
    apply importPublicKey_ok in Hk. destruct Hk as (k & Hk & ->).
    apply jwtVerify_ok in H. destruct H as (jws & Hp & Ha & Hv & Hc).
    exists jws, (KeyObject k). split; [exists s, k; auto|]. auto.
  - apply bind_ok_inv in H. destruct H as (s & w1 & Hs & H).
    apply required_ok in Hs. destruct Hs as (Hs & Hne & _).
    apply bind_ok_inv in H. destruct H as (key & w2 & Hk & H).
    apply importPublicKey_ok in Hk. destruct Hk as (k & Hk & ->).
    apply jwtVerify_ok in H. destruct H as (jws & Hp & Ha & Hv & Hc).
    exists jws, (KeyObject k). split; [exists s, k; auto|]. auto.
Qed.

Lemma type_differs_false (p : TokenPayload) (expected : string) :
  type_differs p expected = false -> type p = Some (CStr expected).
Proof.
  unfold type_differs. destruct (type p) as [[s|z|b| |j]|]; try discriminate.
  destruct (String.eqb_spec s expected) as [->|]; [reflexivity | discriminate].
Qed.

Lemma checkToken_ok (J : Jose) now k config token next w w' r :
  checkToken J now k config token next w = (w', Ok r) ->
  exists w1 p,
    verifyToken J token (jwtConfig_of config) now w = (w1, Ok p)
    /\ type p = Some (CStr (required_type k))
    /\ next (set_jwtPayload p w1) = (w', Ok tt)
    /\ r = None.
Proof.
  unfold checkToken, try_catch. unfold bind at 1.
  destruct (verifyToken J token (jwtConfig_of config) now w) as [w1 [p|e]] eqn:Hv.
  - destruct (type_differs p (required_type k)) eqn:Ht.
    + cbn. discriminate.
    + unfold bind, modify.
      destruct (next (set_jwtPayload p w1)) as [w2 [[]|e]] eqn:Hn.
      * cbn. intros [= <- <-]. exists w1, p.
        split; [reflexivity|]. split; [|split; [assumption | reflexivity]].
        apply type_differs_false. assumption.
      * destruct (is_HTTPException e); cbn;
          [|unfold console_error, modify, throw]; discriminate.
  - destruct (is_HTTPException e); cbn;
      [|unfold bind, console_error, modify, throw]; discriminate.
Qed.

(** X2.  A token middleware lets a request through only when the
    Authorization header carries a bearer token that parses, names the
    configured algorithm in its header, passes the signature check of that
    algorithm under the key built from the config, is not expired (an
    [exp] claim, when present, lies strictly in the future), and has
    exactly the type the operation requires; the rest of the chain then
    ran with these claims in the context. *)
Theorem guard_sound (J : Jose) (now : Z) (c : Context) (k : TokenKind)
    (config : JWTMiddlewareConfig) (mw : MiddlewareHandler) (next : Next)
    (w w' : World) (r : option Response) :
  Guard J now c k config mw ->
  mw c next w = (w', Ok r) ->
  exists token jws key w1,
    req_header c "Authorization" = Some ("Bearer " ++ token)
    /\ verification_key J (jwtConfig_of config) key
    /\ parse_compact J token = Some jws
    /\ jws_alg jws = alg_name (mw_algorithm config)
    /\ jws_verify J (mw_algorithm config) key (jws_payload jws)
         (jws_signature jws) = true
    /\ type (jws_payload jws) = Some (CStr (required_type k))
    /\ (exp (jws_payload jws) = None
        \/ exists e, exp (jws_payload jws) = Some (CNum e) /\ now < e)
    /\ next (set_jwtPayload (jws_payload jws) w1) = (w', Ok tt)
    /\ r = None.
Proof.
  intros G Hrun. rewrite (guard_run _ _ _ _ _ _ next G) in Hrun.
  destruct (extractToken c) as [token|] eqn:Hx; [|discriminate Hrun].
  destruct (negb (JS.truthy (Some token))); [discriminate Hrun|].
  apply checkToken_ok in Hrun. destruct Hrun as (w1 & p & Hv & Hty & Hn & ->).
  apply verifyToken_ok_key in Hv.
  destruct Hv as (jws & key & Hkey & Hp & Ha & Hs & Hc).
  apply validate_claims_ok in Hc. destruct Hc as [-> Hexp].
  apply extractToken_bearer in Hx. destruct Hx as [Hh _].
  exists token, jws, key, w1. repeat split; assumption.
Qed.

(** The protected request with the access token issued at 1000 went
    through at 1060, so the token carries the type access. *)
Lemma guard_sound_witness :
  exists token jws key w1,
    req_header (Sample.request Sample.bindings (Sample.bearer Sample.access_token))
      "Authorization" = Some ("Bearer " ++ token)
    /\ verification_key Toy.jose
         (jwtConfig_of {| mw_algorithm := HS256;
                          mw_secret := Some "s3cret"; mw_publicKey := None |}) key
    /\ parse_compact Toy.jose token = Some jws
    /\ jws_alg jws = "HS256"
    /\ jws_verify Toy.jose HS256 key (jws_payload jws) (jws_signature jws) = true
    /\ type (jws_payload jws) = Some (CStr "access")
    /\ (exp (jws_payload jws) = None
        \/ exists e, exp (jws_payload jws) = Some (CNum e) /\ 1060 < e)
    /\ ret tt (set_jwtPayload (jws_payload jws) w1)
       = (fst (hs256Auth Toy.jose 1060 Sample.secretGetter
                 (Sample.request Sample.bindings (Sample.bearer Sample.access_token))
                 (ret tt) empty_world), Ok tt)
    /\ @None Response = None.
Proof.
  apply (guard_sound Toy.jose 1060
           (Sample.request Sample.bindings (Sample.bearer Sample.access_token))
           AccessKind _ _ (ret tt) empty_world _ None
           (guard_hs256Auth _ _ _ Sample.secretGetter)).
  vm_compute. reflexivity.
Defined.

(** X3.  A bearer token that verifies and has the required type is let
    through: the verified claims are put into the context before the rest
    of the chain runs, and the middleware resolves when the rest does.  An
    HTTPException thrown by the rest of the chain passes unchanged; any
    other error thrown there is written to the console and replaced by
    HTTPException 401 with the generic message. *)
Theorem guard_accepts (J : Jose) (now : Z) (c : Context) (k : TokenKind)
    (config : JWTMiddlewareConfig) (mw : MiddlewareHandler) (next : Next)
    (w w1 : World) (token : string) (p : TokenPayload) :
  Guard J now c k config mw ->
  extractToken c = Some token -> token <> "" ->
  verifyToken J token (jwtConfig_of config) now w = (w1, Ok p) ->
  type p = Some (CStr (required_type k)) ->
  mw c next w
  = match next (set_jwtPayload p w1) with
    | (w2, Ok _) => (w2, Ok None)
    | (w2, Throw (HTTPException st msg)) => (w2, Throw (HTTPException st msg))
    | (w2, Throw (Error n msg)) =>
        (add_console (console_label k) (Error n msg) w2,
         Throw (HTTPException 401 (generic_message k)))
    end.
Proof.
  intros G Hx Ht Hv Hty.
  rewrite (guard_run_token _ _ _ _ _ _ next _ G Hx Ht).
  unfold checkToken, try_catch. unfold bind at 1. rewrite Hv.
  assert (Hd : type_differs p (required_type k) = false).
  { unfold type_differs. rewrite Hty, String.eqb_refl. reflexivity. }
  rewrite Hd. unfold bind, modify.
  destruct (next (set_jwtPayload p w1)) as [w2 [[]|[st msg|n msg]]]; reflexivity.
Qed.

Lemma guard_accepts_witness :
  hs256Auth Toy.jose 1060 Sample.secretGetter
    (Sample.request Sample.bindings (Sample.bearer Sample.access_token))
    (throw (Error "Error" "boom")) empty_world
  = (add_console "JWT verification failed:" (Error "Error" "boom")
       (set_jwtPayload (issued_claims Sample.user "access" 1000 900)
          (fst (verifyToken Toy.jose Sample.access_token Sample.hs_config 1060
                  empty_world))),
     Throw (HTTPException 401 "Invalid or expired token")).
Proof.
  apply (guard_accepts Toy.jose 1060
           (Sample.request Sample.bindings (Sample.bearer Sample.access_token))
           AccessKind _ _ (throw (Error "Error" "boom")) empty_world _
           Sample.access_token (issued_claims Sample.user "access" 1000 900)
           (guard_hs256Auth _ _ _ Sample.secretGetter)).
  - vm_compute. reflexivity.
  - vm_compute. discriminate.
  - vm_compute. reflexivity.
  - reflexivity.
Defined.

(* ===================================================================== *)
(** ** Further properties: the route handlers *)
(* ===================================================================== *)

Lemma frame_refl (w : World) : frame w w.
Proof. repeat split. Qed.

Lemma frame_trans (w1 w2 w3 : World) : frame w1 w2 -> frame w2 w3 -> frame w1 w3.
Proof.
  unfold frame. intros (A1 & A2 & A3 & A4 & A5 & A6) (B1 & B2 & B3 & B4 & B5 & B6).
  repeat split; congruence.
Qed.

Lemma crypto_only_ret {A} (a : A) : crypto_only (ret a).
Proof. intros w w' r [= <- _]. apply frame_refl. Qed.

Lemma crypto_only_throw {A} (e : Exn) : crypto_only (@throw A e).
Proof. intros w w' r [= <- _]. apply frame_refl. Qed.

Lemma crypto_only_lift {A} (x : Result A) : crypto_only (lift x).
Proof. intros w w' r [= <- _]. apply frame_refl. Qed.

Lemma crypto_only_lift_lib {A} (x : Lib A) : crypto_only (lift_lib x).
Proof. destruct x; [apply crypto_only_ret | apply crypto_only_throw]. Qed.

Lemma crypto_only_record_op (op : CryptoOp) : crypto_only (record_op op).
Proof. intros w w' r [= <- _]. repeat split. Qed.

Lemma crypto_only_bind {A B} (m : M A) (k : A -> M B) :
  crypto_only m -> (forall a, crypto_only (k a)) -> crypto_only (bind m k).
Proof.
  intros Hm Hk w w' r. unfold bind.
  destruct (m w) as [w1 [a|e]] eqn:Hmw.
  - intros Hka. eapply frame_trans; [eapply Hm; eassumption | eapply Hk; eassumption].
  - intros [= <- _]. eapply Hm; eassumption.
Qed.

Lemma crypto_only_required (v : option string) (msg : string) :
  crypto_only (required v msg).
Proof.
  unfold required. destruct v as [s|]; [destruct (JS.truthy (Some s))|];
    first [apply crypto_only_ret | apply crypto_only_throw].
Qed.

Create HintDb frame.
#[local] Hint Resolve crypto_only_ret crypto_only_throw crypto_only_lift
  crypto_only_lift_lib crypto_only_record_op crypto_only_required : frame.

Lemma crypto_only_getHS256Key (J : Jose) s : crypto_only (getHS256Key J s).
Proof.
  unfold getHS256Key. apply crypto_only_bind; [|intros _]; auto with frame.
Qed.

Lemma crypto_only_importPublicKey (J : Jose) b a :
  crypto_only (importPublicKey J b a).
Proof.
  unfold importPublicKey.
  apply crypto_only_bind; [auto with frame | intros _].
  apply crypto_only_bind; [|intros k]; auto with frame.
Qed.

Lemma crypto_only_importPrivateKey (J : Jose) b a :
  crypto_only (importPrivateKey J b a).
Proof.
  unfold importPrivateKey.
  apply crypto_only_bind; [auto with frame | intros _].
  apply crypto_only_bind; [|intros k]; auto with frame.
Qed.

Lemma crypto_only_jwtVerify (J : Jose) token key algs now :
  crypto_only (jwtVerify J token key algs now).
Proof.
  unfold jwtVerify. apply crypto_only_bind; [auto with frame|]. intros _.
  destruct (parse_compact J token) as [jws|]; [|auto with frame].
  destruct (find _ algs) as [b|]; [|auto with frame].
  destruct (jws_verify J b key _ _); auto with frame.
Qed.

Lemma crypto_only_verifyToken (J : Jose) token config now :
  crypto_only (verifyToken J token config now).
Proof.
  unfold verifyToken.
  destruct (algorithm config);
    (apply crypto_only_bind; [auto with frame | intros s];
     apply crypto_only_bind;
     [first [apply crypto_only_getHS256Key | apply crypto_only_importPublicKey]
     | intros key; apply crypto_only_jwtVerify]).
Qed.

Lemma crypto_only_sign (J : Jose) key b : crypto_only (sign J key b).
Proof.
  unfold sign. destruct (protectedHeader b); [|auto with frame].
  apply crypto_only_bind; [auto with frame | intros _].
  apply crypto_only_bind; [|intros s]; auto with frame.
Qed.

Lemma crypto_only_generateTokenFrom (J : Jose) ty ex s e config now :
  crypto_only (generateTokenFrom J ty ex s e config now).
Proof.
  unfold generateTokenFrom.
  destruct (algorithm config);
    (apply crypto_only_bind; [auto with frame | intros x];
     apply crypto_only_bind;
     [first [apply crypto_only_getHS256Key | apply crypto_only_importPrivateKey]
     | intros key];
     apply crypto_only_bind; [auto with frame | intros b];
     apply crypto_only_sign).
Qed.

Lemma generateToken_from (J : Jose) ty ex user config now :
  generateToken J ty ex user config now
  = generateTokenFrom J ty ex (Some (CStr (user_sub user)))
      (Some (CStr (user_email user))) config now.
Proof. reflexivity. Qed.

Lemma differs_false (v : string) (binding : option string) :
  differs v binding = false <-> binding = Some v.
Proof.
  unfold differs. destruct binding as [b|]; [|split; discriminate].
  destruct (String.eqb_spec v b) as [->|Hne]; simpl.
  - split; reflexivity.
  - split; [discriminate | intros [= ->]; contradiction].
Qed.



Lemma generateTokenFrom_key_absent (J : Jose) ty ex s e (a : Algorithm)
    (b : Bindings) now w :
  signing_key_absent a b ->
  generateTokenFrom J ty ex s e (route_config a b) now w
  = (w, Throw (Error "Error" (signing_key_message a))).
Proof.
  unfold signing_key_absent, generateTokenFrom.
  destruct a; cbn [route_config algorithm secret privateKey]; intros Habs;
    unfold bind; rewrite (required_absent _ _ _ Habs); reflexivity.
Qed.

(** X5.  Login with the right credentials on a worker whose signing key
    (the HS256 secret, or the RS256/ES256 private key) is absent stops at
    the first generator, before any key operation, with the
    configuration error; the client receives status 500 and the error's
    message in the body. *)
Theorem login_missing_key_500 (J : Jose) (now : Z) (a : Algorithm)
    (email password : string) (c : Context)
    (rest : list MiddlewareHandler) (w : World) :
  TEST_USER_EMAIL (env c) = Some email ->
  TEST_USER_PASSWORD (env c) = Some password ->
  signing_key_absent a (env c) ->
  (forall next,
      route_login J now a email password c next w
      = (w, Throw (Error "Error" (signing_key_message a))))
  /\ status (serve (route_login J now a email password :: rest) c w) = 500
  /\ body_message (serve (route_login J now a email password :: rest) c w)
     = Some (signing_key_message a).
Proof.
  intros He Hp Habs.
  assert (Hrun : forall next,
             route_login J now a email password c next w
             = (w, Throw (Error "Error" (signing_key_message a)))).
  { intros next. unfold route_login.
    rewrite (proj2 (differs_false _ _) He), (proj2 (differs_false _ _) Hp).
    cbn [orb]. unfold bind at 1.
    rewrite generateAccessToken_eq, generateToken_from.
    rewrite (generateTokenFrom_key_absent _ _ _ _ _ _ _ _ _ Habs). reflexivity. }
  split; [exact Hrun|].
  rewrite (serve_throw _ _ _ _ _ _ (Hrun _)). split; reflexivity.
Qed.

Lemma login_missing_key_500_witness :
  status (serve [route_login Toy.jose 1000 HS256 "test@example.com" "password123"]
            (Sample.request Sample.bindings_no_secret None) empty_world) = 500
  /\ body_message
       (serve [route_login Toy.jose 1000 HS256 "test@example.com" "password123"]
          (Sample.request Sample.bindings_no_secret None) empty_world)
     = Some "Secret is required for HS256".
Proof.
  apply (login_missing_key_500 Toy.jose 1000 HS256 "test@example.com" "password123"
           (Sample.request Sample.bindings_no_secret None) [] empty_world);
    reflexivity.
Defined.

Lemma generate_verify_all (J : Jose) (L : JoseLaws J) (a : Algorithm)
    (signer verifier : JWTConfig) user tokenType expiry now d w :
  valid_keys J a signer verifier ->
  secs J expiry = Some d ->
  exists w1 token,
    generateToken J tokenType expiry user signer now w = (w1, Ok token)
    /\ forall t w0, t < now + d ->
         exists w2, verifyToken J token verifier t w0
                    = (w2, Ok (issued_claims user tokenType now d)).
Proof.
  intros Hkeys Hsecs.
  destruct (generate_then_verify J L a signer verifier user tokenType expiry now d
              (now + d - 1) w w Hkeys Hsecs ltac:(lia))
    as (w1 & token & Hgen & _).
  exists w1, token. split; [exact Hgen|].
  intros t w0 Hlt.
  destruct (generate_then_verify J L a signer verifier user tokenType expiry now d
              t w w0 Hkeys Hsecs Hlt)
    as (w1' & token' & Hgen' & w2 & Hver).
  rewrite Hgen in Hgen'. injection Hgen' as _ <-.
  exists w2. exact Hver.
Qed.

Lemma route_config_expiry (a : Algorithm) (e : Bindings) :
  accessTokenExpiry (route_config a e) = None
  /\ refreshTokenExpiry (route_config a e) = None.
Proof. destruct a; split; reflexivity. Qed.

Lemma route_mw_config_env (a : Algorithm) (c1 c2 : Context) :
  env c2 = env c1 -> route_mw_config a c2 = route_mw_config a c1.
Proof.
  intros He. destruct a; unfold route_mw_config, route_key; rewrite He; reflexivity.
Qed.

Lemma route_auth_guard (J : Jose) now (a : Algorithm) (c : Context) :
  Guard J now c AccessKind (route_mw_config a c) (route_auth J now a).
Proof. destruct a; constructor. Qed.

Lemma route_refreshAuth_guard (J : Jose) now (a : Algorithm) (c : Context) :
  Guard J now c RefreshKind (route_mw_config a c) (route_refreshAuth J now a).
Proof. destruct a; constructor. Qed.

Lemma login_run (J : Jose) now (a : Algorithm) email password c next w w1 w2
    accessToken refreshToken :
  TEST_USER_EMAIL (env c) = Some email ->
  TEST_USER_PASSWORD (env c) = Some password ->
  generateToken J "access" "15m" (login_user email) (route_config a (env c)) now w
  = (w1, Ok accessToken) ->
  generateToken J "refresh" "7d" (login_user email) (route_config a (env c)) now w1
  = (w2, Ok refreshToken) ->
  route_login J now a email password c next w
  = (w2, Ok (Some (json_response 200
                     (tokens_body a "Login successful" accessToken refreshToken)))).
Proof.
  intros He Hp Hgen1 Hgen2.
  destruct (route_config_expiry a (env c)) as [Hae Hre].
  unfold route_login.
  rewrite (proj2 (differs_false _ _) He), (proj2 (differs_false _ _) Hp).
  cbn [orb]. unfold bind at 1.
  rewrite generateAccessToken_eq, Hae. cbn [default].
  fold (login_user email). rewrite Hgen1.
  unfold bind at 1. rewrite generateRefreshToken_eq, Hre. cbn [default].
  rewrite Hgen2. reflexivity.
Qed.

(** X6.  Login with the configured test identity on a provisioned worker
    is answered with 200 and a body carrying an access and a refresh
    token.  Until its expiry (900 seconds for the access token, 604800
    for the refresh token) each of them verifies under the key the
    middlewares of the same route file use, and gives the subject user-1,
    the login email, its type and the issue and expiry times. *)
Theorem login_issues_tokens (J : Jose) (L : JoseLaws J) (now : Z) (a : Algorithm)
    (email password : string) (c : Context) (next : Next) (w : World) :
  TEST_USER_EMAIL (env c) = Some email ->
  TEST_USER_PASSWORD (env c) = Some password ->
  provisioned J a c ->
  exists accessToken refreshToken w',
    route_login J now a email password c next w
    = (w', Ok (Some (json_response 200
                       (tokens_body a "Login successful" accessToken refreshToken))))
    /\ frame w w'
    /\ (forall t w0, t < now + 900 ->
          exists w1,
            verifyToken J accessToken (jwtConfig_of (route_mw_config a c)) t w0
            = (w1, Ok (issued_claims (login_user email) "access" now 900)))
    /\ (forall t w0, t < now + 604800 ->
          exists w1,
            verifyToken J refreshToken (jwtConfig_of (route_mw_config a c)) t w0
            = (w1, Ok (issued_claims (login_user email) "refresh" now 604800))).
Proof.
  intros He Hp Hprov. unfold provisioned in Hprov.
  destruct (generate_verify_all J L a _ _ (login_user email) "access" "15m" now 900 w
              Hprov (secs_15m J L)) as (w1 & accessToken & Hgen1 & Hver1).
  destruct (generate_verify_all J L a _ _ (login_user email) "refresh" "7d" now
              604800 w1 Hprov (secs_7d J L)) as (w2 & refreshToken & Hgen2 & Hver2).
  exists accessToken, refreshToken, w2.
  split; [|split; [|split; assumption]].
  - eapply login_run; eassumption.
  - eapply frame_trans.
    + rewrite generateToken_from in Hgen1.
      eapply crypto_only_generateTokenFrom; eassumption.
    + rewrite generateToken_from in Hgen2.
      eapply crypto_only_generateTokenFrom; eassumption.
Qed.

Lemma login_issues_tokens_witness :
  exists accessToken refreshToken w',
    route_login Toy.jose 1000 HS256 "test@example.com" "password123"
      (Sample.request Sample.bindings None) (ret tt) empty_world
    = (w', Ok (Some (json_response 200
                       (tokens_body HS256 "Login successful" accessToken
                          refreshToken))))
    /\ frame empty_world w'
    /\ (forall t w0, t < 1000 + 900 ->
          exists w1,
            verifyToken Toy.jose accessToken
              (jwtConfig_of (route_mw_config HS256 (Sample.request Sample.bindings None)))
              t w0
            = (w1, Ok (issued_claims (login_user "test@example.com") "access"
                         1000 900)))
    /\ (forall t w0, t < 1000 + 604800 ->
          exists w1,
            verifyToken Toy.jose refreshToken
              (jwtConfig_of (route_mw_config HS256 (Sample.request Sample.bindings None)))
              t w0
            = (w1, Ok (issued_claims (login_user "test@example.com") "refresh"
                         1000 604800))).
Proof.
  apply (login_issues_tokens Toy.jose ToyFacts.laws 1000 HS256 "test@example.com"
           "password123" (Sample.request Sample.bindings None) (ret tt) empty_world).
  - reflexivity.
  - reflexivity.
  - split; [reflexivity|]. split; [reflexivity|].
    exists "s3cret". split; [discriminate|]. split; [exact I|].
    split; reflexivity.
Defined.

(** A handler behind a token middleware answers the request when the
    bearer token verifies with the required type: the response is the
    handler's, computed with the verified claims in the context. *)
Lemma serve_guarded (J : Jose) now c k config mw (h : MiddlewareHandler)
    (w w1 w2 : World) token p r :
  Guard J now c k config mw ->
  extractToken c = Some token -> token <> "" ->
  verifyToken J token (jwtConfig_of config) now w = (w1, Ok p) ->
  type p = Some (CStr (required_type k)) ->
  finalized w = false ->
  h c (ret tt) (set_jwtPayload p w1) = (w2, Ok (Some r)) ->
  frame (set_jwtPayload p w1) w2 ->
  serve [mw; h] c w = r.
Proof.
  intros G Hx Ht Hv Hty Hfin Hh Hfr.
  assert (Hf1 : finalized w1 = false).
  { destruct (crypto_only_verifyToken J token (jwtConfig_of config) now w w1 _ Hv)
      as (_ & _ & _ & Hf & _). rewrite Hf. exact Hfin. }
  assert (Hf2 : finalized w2 = false).
  { destruct Hfr as (_ & _ & _ & Hf & _). rewrite Hf. exact Hf1. }
  unfold serve. cbn [dispatch].
  rewrite (guard_accepts J now c k config mw _ w w1 token p G Hx Ht Hv Hty).
  cbv beta. rewrite Hh, Hf2. reflexivity.
Qed.

Lemma bearer_extract (c : Context) (token : string) :
  bearer_safe token ->
  req_header c "Authorization" = Some ("Bearer " ++ token) ->
  extractToken c = Some token /\ token <> "".
Proof.
  intros [Hne Hns] Hh. split; [|exact Hne].
  apply extractToken_bearer. split; assumption.
Qed.

Lemma provisioned_env (J : Jose) (a : Algorithm) (c1 c2 : Context) :
  env c2 = env c1 -> provisioned J a c1 -> provisioned J a c2.
Proof.
  intros He. unfold provisioned.
  rewrite (route_mw_config_env a c1 c2 He), He. tauto.
Qed.

(** X7.  Login followed by a protected request: with the access token of
    the login response as bearer token, presented to the same worker
    before the token expires, /protected answers 200 with the user id
    user-1 and the login email, and /verify answers 200 and echoes the
    claims of the token: subject, email, type access, issue time and
    expiry. *)
Theorem login_then_access (J : Jose) (L : JoseLaws J) (now1 now2 : Z)
    (isoTime : string) (a : Algorithm) (email password : string)
    (c1 c2 : Context) (next : Next) (w1 w2 : World) :
  TEST_USER_EMAIL (env c1) = Some email ->
  TEST_USER_PASSWORD (env c1) = Some password ->
  provisioned J a c1 ->
  env c2 = env c1 ->
  finalized w2 = false ->
  now2 < now1 + 900 ->
  exists accessToken refreshToken w1',
    route_login J now1 a email password c1 next w1
    = (w1', Ok (Some (json_response 200
                        (tokens_body a "Login successful" accessToken refreshToken))))
    /\ (bearer_safe accessToken ->
        req_header c2 "Authorization" = Some ("Bearer " ++ accessToken) ->
        serve [route_auth J now2 a; route_protected isoTime a] c2 w2
        = json_response 200
            [("message", JStr "Access granted to protected resource");
             ("algorithm", JStr (alg_name a));
             ("user", JObj [("id", JStr "user-1"); ("email", JStr email)]);
             ("data",
              JObj [("secretInfo",
                     JStr ("This is protected data only accessible with a valid "
                           ++ alg_name a ++ " JWT"));
                    ("timestamp", JStr isoTime)])]
        /\ serve [route_auth J now2 a; route_verify a] c2 w2
           = json_response 200
               [("valid", JBool true);
                ("algorithm", JStr (alg_name a));
                ("payload",
                 JObj [("sub", JStr "user-1"); ("email", JStr email);
                       ("type", JStr "access"); ("iat", JNum now1);
                       ("exp", JNum (now1 + 900))])]).
Proof.
  intros He Hp Hprov Henv Hfin Hlt. unfold provisioned in Hprov.
  destruct (generate_verify_all J L a _ _ (login_user email) "access" "15m" now1 900
              w1 Hprov (secs_15m J L)) as (wa & accessToken & Hgen1 & Hver1).
  destruct (generate_verify_all J L a _ _ (login_user email) "refresh" "7d" now1
              604800 wa Hprov (secs_7d J L)) as (wb & refreshToken & Hgen2 & _).
  exists accessToken, refreshToken, wb.
  split; [eapply login_run; eassumption|].
  intros Hsafe Hh.
  destruct (bearer_extract c2 accessToken Hsafe Hh) as [Hx Hne].
  destruct (Hver1 now2 w2 Hlt) as (wv & Hv).
  rewrite <- (route_mw_config_env a c1 c2 Henv) in Hv.
  split.
  - eapply (serve_guarded J now2 c2 AccessKind _ _ _ w2 wv _ accessToken _ _
              (route_auth_guard J now2 a c2) Hx Hne Hv).
    + reflexivity.
    + exact Hfin.
    + reflexivity.
    + apply frame_refl.
  - eapply (serve_guarded J now2 c2 AccessKind _ _ _ w2 wv _ accessToken _ _
              (route_auth_guard J now2 a c2) Hx Hne Hv).
    + reflexivity.
    + exact Hfin.
    + reflexivity.
    + apply frame_refl.
Qed.

Lemma login_then_access_witness :
  status (serve [route_auth Toy.jose 1060 HS256;
                 route_protected "2026-01-07T00:00:00.000Z" HS256]
            (Sample.request Sample.bindings (Sample.bearer Sample.access_token))
            empty_world) = 200.
Proof.
  destruct (login_then_access Toy.jose ToyFacts.laws 1000 1060
              "2026-01-07T00:00:00.000Z" HS256 "test@example.com" "password123"
              (Sample.request Sample.bindings None)
              (Sample.request Sample.bindings (Sample.bearer Sample.access_token))
              (ret tt) empty_world empty_world)
    as (accessToken & refreshToken & w1' & Hlogin & Huse).
  - reflexivity.
  - reflexivity.
  - split; [reflexivity|]. split; [reflexivity|].
    exists "s3cret". split; [discriminate|]. split; [exact I|].
    split; reflexivity.
  - reflexivity.
  - reflexivity.
  - lia.
  - vm_compute in Hlogin. injection Hlogin as _ Ha _.
    destruct Huse as [Hprot _].
    + rewrite <- Ha. split; [discriminate | vm_compute; reflexivity].
    + rewrite <- Ha. vm_compute. reflexivity.
    + rewrite Hprot. reflexivity.
Defined.

Lemma refresh_run (J : Jose) now (a : Algorithm) c next w w1 w2 p
    accessToken refreshToken :
  var_jwtPayload w = Some p ->
  generateTokenFrom J "access" "15m" (sub p) (email p) (route_config a (env c)) now w
  = (w1, Ok accessToken) ->
  generateTokenFrom J "refresh" "7d" (sub p) (email p) (route_config a (env c)) now w1
  = (w2, Ok refreshToken) ->
  route_refresh J now a c next w
  = (w2, Ok (Some (json_response 200
                     (tokens_body a "Token refreshed" accessToken refreshToken)))).
Proof.
  intros Hp Hgen1 Hgen2.
  destruct (route_config_expiry a (env c)) as [Hae Hre].
  unfold route_refresh. unfold bind at 1. unfold get_jwtPayload. rewrite Hp.
  rewrite Hae, Hre. cbn [default].
  unfold bind at 1. rewrite Hgen1. unfold bind at 1. rewrite Hgen2. reflexivity.
Qed.

(** X8.  Login followed by a refresh: with the refresh token of the login
    response as bearer token, presented to the same worker before it
    expires, /refresh answers 200 with a new pair of tokens issued at the
    time of the refresh for the same subject and email; the new access
    token verifies for 900 seconds and the new refresh token for 604800
    seconds from then. *)
Theorem login_then_refresh (J : Jose) (L : JoseLaws J) (now1 now2 : Z)
    (a : Algorithm) (email password : string)
    (c1 c2 : Context) (next : Next) (w1 w2 : World) :
  TEST_USER_EMAIL (env c1) = Some email ->
  TEST_USER_PASSWORD (env c1) = Some password ->
  provisioned J a c1 ->
  env c2 = env c1 ->
  finalized w2 = false ->
  now2 < now1 + 604800 ->
  exists accessToken refreshToken w1',
    route_login J now1 a email password c1 next w1
    = (w1', Ok (Some (json_response 200
                        (tokens_body a "Login successful" accessToken refreshToken))))
    /\ (bearer_safe refreshToken ->
        req_header c2 "Authorization" = Some ("Bearer " ++ refreshToken) ->
        exists accessToken2 refreshToken2,
          serve [route_refreshAuth J now2 a; route_refresh J now2 a] c2 w2
          = json_response 200
              (tokens_body a "Token refreshed" accessToken2 refreshToken2)
          /\ (forall t w0, t < now2 + 900 ->
                exists w',
                  verifyToken J accessToken2 (jwtConfig_of (route_mw_config a c2))
                    t w0
                  = (w', Ok (issued_claims (login_user email) "access" now2 900)))
          /\ (forall t w0, t < now2 + 604800 ->
                exists w',
                  verifyToken J refreshToken2 (jwtConfig_of (route_mw_config a c2))
                    t w0
                  = (w', Ok (issued_claims (login_user email) "refresh" now2
                               604800)))).
Proof.
  intros He Hp Hprov Henv Hfin Hlt.
  pose proof (provisioned_env J a c1 c2 Henv Hprov) as Hprov2.
  unfold provisioned in Hprov, Hprov2.
  destruct (generate_verify_all J L a _ _ (login_user email) "access" "15m" now1 900
              w1 Hprov (secs_15m J L)) as (wa & accessToken & Hgen1 & _).
  destruct (generate_verify_all J L a _ _ (login_user email) "refresh" "7d" now1
              604800 wa Hprov (secs_7d J L)) as (wb & refreshToken & Hgen2 & Hver2).
  exists accessToken, refreshToken, wb.
  split; [eapply login_run; eassumption|].
  intros Hsafe Hh.
  destruct (bearer_extract c2 refreshToken Hsafe Hh) as [Hx Hne].
  destruct (Hver2 now2 w2 Hlt) as (wv & Hv).
  rewrite <- (route_mw_config_env a c1 c2 Henv) in Hv.
  set (p := issued_claims (login_user email) "refresh" now1 604800) in *.
  destruct (generate_verify_all J L a _ _ (login_user email) "access" "15m" now2 900
              (set_jwtPayload p wv) Hprov2 (secs_15m J L))
    as (wc & accessToken2 & Hgen3 & Hver3).
  destruct (generate_verify_all J L a _ _ (login_user email) "refresh" "7d" now2
              604800 wc Hprov2 (secs_7d J L))
    as (wd & refreshToken2 & Hgen4 & Hver4).
  exists accessToken2, refreshToken2.
  split; [|split; assumption].
  rewrite generateToken_from in Hgen3, Hgen4.
  eapply (serve_guarded J now2 c2 RefreshKind _ _ _ w2 wv wd refreshToken p _
            (route_refreshAuth_guard J now2 a c2) Hx Hne Hv).
  - reflexivity.
  - exact Hfin.
  - eapply refresh_run; [reflexivity | exact Hgen3 | exact Hgen4].
  - eapply frame_trans; eapply crypto_only_generateTokenFrom; eassumption.
Qed.

Lemma login_then_refresh_witness :
  status (serve [route_refreshAuth Toy.jose 1060 HS256; route_refresh Toy.jose 1060 HS256]
            (Sample.request Sample.bindings (Sample.bearer Sample.refresh_token))
            empty_world) = 200.
Proof.
  destruct (login_then_refresh Toy.jose ToyFacts.laws 1000 1060
              HS256 "test@example.com" "password123"
              (Sample.request Sample.bindings None)
              (Sample.request Sample.bindings (Sample.bearer Sample.refresh_token))
              (ret tt) empty_world empty_world)
    as (accessToken & refreshToken & w1' & Hlogin & Huse).
  - reflexivity.
  - reflexivity.
  - split; [reflexivity|]. split; [reflexivity|].
    exists "s3cret". split; [discriminate|]. split; [exact I|].
    split; reflexivity.
  - reflexivity.
  - reflexivity.
  - lia.
  - vm_compute in Hlogin. injection Hlogin as _ _ Hr.
    destruct Huse as (a2 & r2 & Hserve & _).
    + rewrite <- Hr. split; [discriminate | vm_compute; reflexivity].
    + rewrite <- Hr. vm_compute. reflexivity.
    + rewrite Hserve. reflexivity.
Defined.

(* ===================================================================== *)
(** ** Further properties: the key set, the logger *)
(* ===================================================================== *)








Lemma prefix_app (n s : string) :
  String.prefix n s = true <-> exists post, s = n ++ post.
Proof.
  revert s. induction n as [|ch n IH]; intros s.
  - split; [intros _; exists s; reflexivity | intros _; destruct s; reflexivity].
  - destruct s as [|ch' s]; cbn [String.prefix append].
    + split; [discriminate | intros [post H]; discriminate H].
    + destruct (Ascii.ascii_dec ch ch') as [->|Hne].
      * rewrite IH. split; intros [post H]; exists post.
        -- rewrite H. reflexivity.
        -- injection H as H. exact H.
      * split; [discriminate|]. intros [post H]. injection H as H _.
        symmetry in H. contradiction.
Qed.

Lemma extractAlgorithm_unfold (path : string) :
  extractAlgorithm path
  = if String.prefix "/auth/hs256/" path then Some "HS256"
    else if String.prefix "/auth/rs256/" path then Some "RS256"
    else if String.prefix "/auth/es256/" path then Some "ES256"
    else match path with
         | EmptyString => None
         | String _ rest => extractAlgorithm rest
         end.
Proof. destruct path; reflexivity. Qed.

(** X10.  [extractAlgorithm] yields an algorithm name exactly for the
    paths that contain /auth/hs256/, /auth/rs256/ or /auth/es256/ (the
    closing slash included), and the name is the upper-case form of the
    one found; every other path, such as those of the password routes,
    gives null.  A path that starts with one of the three prefixes gives
    that algorithm. *)
Theorem extractAlgorithm_paths :
  (forall path name,
      extractAlgorithm path = Some name ->
      exists a pre post, name = alg_name a /\ path = pre ++ auth_prefix a ++ post)
  /\ (forall a pre post, extractAlgorithm (pre ++ auth_prefix a ++ post) <> None)
  /\ (forall a post, extractAlgorithm (auth_prefix a ++ post) = Some (alg_name a)).
Proof.
  split; [|split].
  - intros path. induction path as [|ch path IH]; intros name;
      rewrite extractAlgorithm_unfold.
    + cbn. discriminate.
    + destruct (String.prefix "/auth/hs256/" (String ch path)) eqn:H1.
      { intros [= <-]. apply prefix_app in H1. destruct H1 as [post ->].
        exists HS256, "", post. split; reflexivity. }
      destruct (String.prefix "/auth/rs256/" (String ch path)) eqn:H2.
      { intros [= <-]. apply prefix_app in H2. destruct H2 as [post ->].
        exists RS256, "", post. split; reflexivity. }
      destruct (String.prefix "/auth/es256/" (String ch path)) eqn:H3.
      { intros [= <-]. apply prefix_app in H3. destruct H3 as [post ->].
        exists ES256, "", post. split; reflexivity. }
      intros H. apply IH in H. destruct H as (a & pre & post & -> & ->).
      exists a, (String ch pre), post. split; reflexivity.
  - intros a pre post. induction pre as [|ch pre IH].
    + cbn [append]. rewrite extractAlgorithm_unfold.
      assert (Hp : String.prefix (auth_prefix a) (auth_prefix a ++ post) = true)
        by (apply prefix_app; exists post; reflexivity).
      destruct a; cbn [auth_prefix] in *.
      * rewrite Hp. discriminate.
      * rewrite Hp. destruct (String.prefix "/auth/hs256/" _); discriminate.
      * rewrite Hp. destruct (String.prefix "/auth/hs256/" _);
          [discriminate|]. destruct (String.prefix "/auth/rs256/" _); discriminate.
    + cbn [append]. rewrite extractAlgorithm_unfold.
      destruct (String.prefix "/auth/hs256/" _); [discriminate|].
      destruct (String.prefix "/auth/rs256/" _); [discriminate|].
      destruct (String.prefix "/auth/es256/" _); [discriminate|].
      exact IH.
  - intros a post. rewrite extractAlgorithm_unfold.
    assert (Hp : String.prefix (auth_prefix a) (auth_prefix a ++ post) = true)
      by (apply prefix_app; exists post; reflexivity).
    destruct a; cbn [auth_prefix alg_name] in *.
    + rewrite Hp. reflexivity.
    + destruct (String.prefix "/auth/hs256/" ("/auth/rs256/" ++ post)) eqn:H1.
      { apply prefix_app in H1. destruct H1 as [p1 H1]. discriminate H1. }
      rewrite Hp. reflexivity.
    + destruct (String.prefix "/auth/hs256/" ("/auth/es256/" ++ post)) eqn:H1.
      { apply prefix_app in H1. destruct H1 as [p1 H1]. discriminate H1. }
      destruct (String.prefix "/auth/rs256/" ("/auth/es256/" ++ post)) eqn:H2.
      { apply prefix_app in H2. destruct H2 as [p2 H2]. discriminate H2. }
      rewrite Hp. reflexivity.
Qed.

Lemma extractAlgorithm_paths_witness :
  exists a pre post,
    "RS256" = alg_name a /\ "/api/auth/rs256/login" = pre ++ auth_prefix a ++ post.
Proof.
  apply (proj1 extractAlgorithm_paths "/api/auth/rs256/login" "RS256").
  reflexivity.
Defined.



(* ===================================================================== *)
(** ** Further properties: the password routes *)
(* ===================================================================== *)

Lemma store_get_set_same (email : string) (u : StoredUser) (store : UserStore) :
  store_get email (store_set email u store) = Some u.
Proof.
  induction store as [|[k v] rest IH]; simpl.
  - rewrite String.eqb_refl. reflexivity.
  - destruct (String.eqb k email) eqn:Hk; simpl; rewrite Hk; [reflexivity | exact IH].
Qed.

Lemma store_get_set_other (email other : string) (u : StoredUser)
    (store : UserStore) :
  email <> other ->
  store_get email (store_set other u store) = store_get email store.
Proof.
  intros Hne. induction store as [|[k v] rest IH]; simpl.
  - destruct (String.eqb_spec other email) as [->|]; [contradiction | reflexivity].
  - destruct (String.eqb_spec k other) as [->|Hko]; simpl.
    + destruct (String.eqb_spec other email) as [->|]; [contradiction | reflexivity].
    + destruct (String.eqb k email); [reflexivity | exact IH].
Qed.

Lemma login_safeIterations_fin (c : Context) (m : Z) :
  login_safeIterations c = JS.Fin m -> 1000 <= m <= 100000.
Proof.
  unfold login_safeIterations.
  destruct (req_query c "iterations") as [p|].
  - destruct (JS.truthy (Some p)).
    + destruct (JS.parseInt p) as [|n]; [discriminate|].
      rewrite clamp_number. intros [= <-]. lia.
    + rewrite clamp_number. intros [= <-]. lia.
  - rewrite clamp_number. intros [= <-]. lia.
Qed.

Lemma hashPassword_run (pbkdf2 : string -> string -> Z -> string)
    (password salt0 : string) (m : Z) (w : World) :
  1 <= m <= 100000 ->
  hashPassword pbkdf2 password salt0 (JS.Fin m) w
  = (add_crypto (OpPBKDF2 (JS.Fin m)) w, Ok (pbkdf2 password salt0 m)).
Proof.
  intros Hm. unfold hashPassword, bind, record_op, modify.
  destruct (Z.ltb_spec m 1); [lia|].
  destruct (Z.ltb_spec 100000 m); [lia|]. reflexivity.
Qed.

(** Login of a stored user: one PBKDF2 run with the stored salt and count,
    the store untouched, 200 exactly when the hashes agree. *)
Lemma login_stored (pbkdf2 : string -> string -> Z -> string) (c : Context)
    (email password freshSalt : string) (t : Z) (store : UserStore) (w : World)
    (u : StoredUser) (m : Z) :
  store_get email store = Some u ->
  iterations u = JS.Fin m -> 1 <= m <= 100000 ->
  exists r,
    password_login pbkdf2 c email password freshSalt t store w
    = (add_crypto (OpPBKDF2 (JS.Fin m)) w, Ok (store, r))
    /\ status r = (if String.eqb (pbkdf2 password (salt u) m) (passwordHash u)
                   then 200 else 401).
Proof.
  intros Hget Hit Hm. unfold password_login. rewrite Hget.
  unfold bind at 1, ret at 1. unfold verifyPassword. rewrite Hit.
  unfold bind at 1, bind at 1. rewrite (hashPassword_run _ _ _ _ _ Hm).
  unfold ret at 1.
  destruct (String.eqb (pbkdf2 password (salt u) m) (passwordHash u));
    eexists; split; reflexivity.
Qed.

(** X12.  First login of the test identity: when the request's iteration
    count is a number, the handler hashes the configured password with the
    fresh salt and the clamped count and stores the user, whatever
    password was presented; the answer is 200 exactly when the presented
    password hashes to the stored hash.  From then on every login with
    the configured password is answered with 200, under any later
    request. *)
Theorem first_login_registers (pbkdf2 : string -> string -> Z -> string)
    (c : Context) (password freshSalt : string) (t : Z) (store : UserStore)
    (w : World) (m : Z) :
  store_get (testEmail_of c) store = None ->
  login_safeIterations c = JS.Fin m ->
  let u := registered_user pbkdf2 c freshSalt m in
  let store' := store_set (testEmail_of c) u store in
  exists w' r,
    password_login pbkdf2 c (testEmail_of c) password freshSalt t store w
    = (w', Ok (store', r))
    /\ crypto w' = (crypto w ++ [OpPBKDF2 (JS.Fin m); OpPBKDF2 (JS.Fin m)])%list
    /\ status r = (if String.eqb (pbkdf2 password freshSalt m)
                                 (pbkdf2 (testPassword_of c) freshSalt m)
                   then 200 else 401)
    /\ (forall c2 salt2 t2 w2,
          exists w2' r2,
            password_login pbkdf2 c2 (testEmail_of c) (testPassword_of c)
              salt2 t2 store' w2
            = (w2', Ok (store', r2))
            /\ status r2 = 200).
Proof.
  intros Hget Hit. cbv zeta.
  pose proof (login_safeIterations_fin c m Hit) as Hm.
  assert (Hm1 : 1 <= m <= 100000) by lia.
  unfold password_login at 1. rewrite Hget. fold (testEmail_of c).
  rewrite String.eqb_refl, Hit. fold (testPassword_of c).
  unfold bind at 1, bind at 1. rewrite (hashPassword_run _ _ _ _ _ Hm1).
  unfold ret at 1. fold (registered_user pbkdf2 c freshSalt m).
  unfold verifyPassword. cbn [iterations salt passwordHash registered_user].
  unfold bind at 1, bind at 1. rewrite (hashPassword_run _ _ _ _ _ Hm1).
  unfold ret at 1.
  assert (Hlater : forall c2 salt2 t2 w2,
             exists w2' r2,
               password_login pbkdf2 c2 (testEmail_of c) (testPassword_of c)
                 salt2 t2
                 (store_set (testEmail_of c) (registered_user pbkdf2 c freshSalt m)
                    store) w2
               = (w2', Ok (store_set (testEmail_of c)
                             (registered_user pbkdf2 c freshSalt m) store, r2))
               /\ status r2 = 200).
  { intros c2 salt2 t2 w2.
    destruct (login_stored pbkdf2 c2 (testEmail_of c) (testPassword_of c) salt2 t2
                (store_set (testEmail_of c) (registered_user pbkdf2 c freshSalt m)
                   store)
                w2 (registered_user pbkdf2 c freshSalt m) m
                (store_get_set_same _ _ _) eq_refl Hm1) as (r2 & Hrun & Hst).
    cbn [salt passwordHash registered_user] in Hst.
    rewrite String.eqb_refl in Hst.
    eexists; exists r2. split; [exact Hrun | exact Hst]. }
  destruct (String.eqb (pbkdf2 password freshSalt m)
              (pbkdf2 (testPassword_of c) freshSalt m));
    (eexists; eexists; split; [reflexivity|];
     split; [cbn [crypto add_crypto]; rewrite <- app_assoc; reflexivity|];
     split; [reflexivity | exact Hlater]).
Qed.

Lemma first_login_registers_witness :
  exists w' r,
    password_login (fun p s n => (p ++ s)%string)
      (login_request "250000") "test@example.com" "password123" "salt" 7 []
      empty_world
    = (w', Ok (store_set "test@example.com"
                 (registered_user (fun p s n => (p ++ s)%string)
                    (login_request "250000") "salt" 100000) [], r))
    /\ status r = 200.
Proof.
  destruct (first_login_registers (fun p s n => (p ++ s)%string)
              (login_request "250000") "password123" "salt" 7 [] empty_world
              100000 eq_refl eq_refl) as (w' & r & Hrun & _ & Hst & _).
  exists w', r. split; [exact Hrun | exact Hst].
Defined.

(** X13.  Login of a user that is already stored ignores the request's
    iteration count and the bindings: PBKDF2 runs once, with the salt and
    the count stored at registration; the store is not modified; the
    answer is 200 when the presented password hashes to the stored hash
    and 401 otherwise. *)
Theorem login_stored_user (pbkdf2 : string -> string -> Z -> string)
    (email password : string) (store : UserStore) (u : StoredUser) (m : Z) :
  store_get email store = Some u ->
  iterations u = JS.Fin m -> 1000 <= m <= 100000 ->
  forall (c : Context) (freshSalt : string) (t : Z) (w : World),
  exists r,
    password_login pbkdf2 c email password freshSalt t store w
    = (add_crypto (OpPBKDF2 (JS.Fin m)) w, Ok (store, r))
    /\ status r = (if String.eqb (pbkdf2 password (salt u) m) (passwordHash u)
                   then 200 else 401).
Proof.
  intros Hget Hit Hm c freshSalt t w.
  apply login_stored; [assumption | assumption | lia].
Qed.

Lemma login_stored_user_witness :
  exists r,
    password_login (fun p s n => (p ++ s)%string)
      (login_request "1000") "test@example.com" "wrong" "other-salt" 7
      [("test@example.com",
        registered_user (fun p s n => (p ++ s)%string) (login_request "250000")
          "salt" 100000)]
      empty_world
    = (add_crypto (OpPBKDF2 (JS.Fin 100000)) empty_world,
       Ok ([("test@example.com",
             registered_user (fun p s n => (p ++ s)%string) (login_request "250000")
               "salt" 100000)], r))
    /\ status r = 401.
Proof.
  apply (login_stored_user (fun p s n => (p ++ s)%string) "test@example.com" "wrong"
           [("test@example.com",
             registered_user (fun p s n => (p ++ s)%string) (login_request "250000")
               "salt" 100000)]
           (registered_user (fun p s n => (p ++ s)%string) (login_request "250000")
                "salt" 100000) 100000 eq_refl eq_refl ltac:(lia)
           (login_request "1000") "other-salt" 7 empty_world).
Defined.

(** X14.  Login with an email that is neither stored nor the test
    identity, with a numeric iteration count: PBKDF2 still runs once, on
    the presented password with the clamped count of the request, the
    store is not modified, and the answer is 401 with the same message as
    for a wrong password. *)
Theorem login_unknown_email (pbkdf2 : string -> string -> Z -> string)
    (c : Context) (email password freshSalt : string) (t : Z)
    (store : UserStore) (w : World) (m : Z) :
  store_get email store = None ->
  email <> testEmail_of c ->
  login_safeIterations c = JS.Fin m ->
  password_login pbkdf2 c email password freshSalt t store w
  = (add_crypto (OpPBKDF2 (JS.Fin m)) w,
     Ok (store,
         json_response 401
           [("error", JStr "Authentication failed");
            ("message", JStr "Invalid email or password")])).
Proof.
  intros Hget Hne Hit.
  pose proof (login_safeIterations_fin c m Hit) as Hm.
  unfold password_login. rewrite Hget. fold (testEmail_of c).
  destruct (String.eqb_spec email (testEmail_of c)) as [Heq|_]; [contradiction|].
  assert (Hm1 : 1 <= m <= 100000) by lia.
  unfold bind at 1, ret at 1. rewrite Hit.
  unfold bind. rewrite (hashPassword_run _ _ _ _ _ Hm1). reflexivity.
Qed.

Lemma login_unknown_email_witness :
  password_login (fun p s n => (p ++ s)%string)
    (login_request "5") "nobody@example.com" "pw" "salt" 7 [] empty_world
  = (add_crypto (OpPBKDF2 (JS.Fin 1000)) empty_world,
     Ok ([],
         json_response 401
           [("error", JStr "Authentication failed");
            ("message", JStr "Invalid email or password")])).
Proof.
  apply login_unknown_email; [reflexivity | discriminate | reflexivity].
Defined.

Lemma store_ok_set (email : string) (u : StoredUser) (store : UserStore) :
  store_ok store -> in_range (iterations u) ->
  store_ok (store_set email u store).
Proof.
  intros Hok Hu e' u' Hget.
  destruct (String.eqb_spec e' email) as [->|Hne].
  - rewrite store_get_set_same in Hget. injection Hget as <-. exact Hu.
  - rewrite (store_get_set_other _ _ _ _ Hne) in Hget. eapply Hok; eassumption.
Qed.

Lemma hashPassword_NaN (pbkdf2 : string -> string -> Z -> string)
    (password salt0 : string) (w : World) :
  hashPassword pbkdf2 password salt0 JS.NaN w
  = (add_crypto (OpPBKDF2 JS.NaN) w,
     Throw (Error "TypeError" "iterations is not a valid unsigned long")).
Proof. reflexivity. Qed.

(** X15.  Every login that is answered keeps the user store sound: all
    stored iteration counts are numbers of [1000, 100000] before and
    after, every PBKDF2 run of the request used a count of that range,
    the answer is 200 or 401, and the store changes only by the
    registration of the test identity at its first login.  (A request
    whose count is not a number is not answered: it ends in an error
    before anything is stored.) *)
Theorem login_keeps_store_ok (pbkdf2 : string -> string -> Z -> string)
    (c : Context) (email password freshSalt : string) (t : Z)
    (store store' : UserStore) (w w' : World) (r : Response) :
  store_ok store ->
  password_login pbkdf2 c email password freshSalt t store w
  = (w', Ok (store', r)) ->
  store_ok store'
  /\ (exists ops, crypto w' = (crypto w ++ ops)%list
                  /\ Forall pbkdf2_in_range ops)
  /\ (status r = 200 \/ status r = 401)
  /\ (store' = store
      \/ (store_get email store = None /\ email = testEmail_of c
          /\ exists u, store' = store_set email u store)).
Proof.
  intros Hok Hrun.
  destruct (store_get email store) as [u|] eqn:Hget.
  - destruct (Hok email u Hget) as (m & Hit & Hm).
    assert (Hm1 : 1 <= m <= 100000) by lia.
    destruct (login_stored pbkdf2 c email password freshSalt t store w u m Hget Hit
                Hm1) as (r0 & Hrun0 & Hst).
    rewrite Hrun0 in Hrun. injection Hrun as <- <- <-.
    split; [exact Hok|]. split; [|split].
    + exists [OpPBKDF2 (JS.Fin m)]. split; [reflexivity|].
      constructor; [exists m; split; [reflexivity | exact Hm] | constructor].
    + rewrite Hst. destruct (String.eqb _ _); [left | right]; reflexivity.
    + left. reflexivity.
  - unfold password_login in Hrun. rewrite Hget in Hrun.
    fold (testEmail_of c) in Hrun. fold (testPassword_of c) in Hrun.
    destruct (login_safeIterations c) as [|m] eqn:Hit.
    + (* not a number: the first hash throws *)
      destruct (String.eqb email (testEmail_of c));
        unfold bind at 1 in Hrun;
        [unfold bind at 1 in Hrun | unfold ret at 1 in Hrun; unfold bind at 1 in Hrun];
        rewrite hashPassword_NaN in Hrun; discriminate Hrun.
    + pose proof (login_safeIterations_fin c m Hit) as Hm.
      assert (Hm1 : 1 <= m <= 100000) by lia.
      destruct (String.eqb_spec email (testEmail_of c)) as [Heq|Hne].
      * unfold bind at 1, bind at 1 in Hrun.
        rewrite (hashPassword_run _ _ _ _ _ Hm1) in Hrun.
        unfold ret at 1 in Hrun. unfold verifyPassword in Hrun.
        cbn [iterations salt passwordHash] in Hrun.
        unfold bind at 1, bind at 1 in Hrun.
        rewrite (hashPassword_run _ _ _ _ _ Hm1) in Hrun.
        unfold ret at 1 in Hrun.
        destruct (String.eqb _ _) in Hrun;
          injection Hrun as <- <- <-;
          (split;
           [apply store_ok_set;
            [exact Hok | exists m; split; [reflexivity | exact Hm]]|];
           split;
           [exists [OpPBKDF2 (JS.Fin m); OpPBKDF2 (JS.Fin m)];
            split; [cbn [crypto add_crypto]; rewrite <- app_assoc; reflexivity|];
            repeat constructor; exists m; (split; [reflexivity | exact Hm])|];
           split; [first [left; reflexivity | right; reflexivity]|];
           right; split; [reflexivity|]; split; [exact Heq|];
           eexists; reflexivity).
      * unfold bind at 1, ret at 1 in Hrun. unfold bind in Hrun.
        rewrite (hashPassword_run _ _ _ _ _ Hm1) in Hrun.
        injection Hrun as <- <- <-.
        split; [exact Hok|]. split; [|split].
        -- exists [OpPBKDF2 (JS.Fin m)]. split; [reflexivity|].
           constructor; [exists m; split; [reflexivity | exact Hm] | constructor].
        -- right. reflexivity.
        -- left. reflexivity.
Qed.

Lemma login_keeps_store_ok_witness :
  store_ok (fst (match password_login (fun p s n => (p ++ s)%string)
                         (login_request "250000") "test@example.com" "password123"
                         "salt" 7 [] empty_world with
                 | (_, Ok sr) => sr
                 | (_, Throw _) => ([], json_response 500 [])
                 end)).
Proof.
  eapply (login_keeps_store_ok (fun p s n => (p ++ s)%string)
            (login_request "250000") "test@example.com" "password123" "salt" 7
            [] _ empty_world _ _).
  - intros e u H. discriminate H.
  - vm_compute. reflexivity.
Defined.


(** X17.  The row limit /logs hands to the database never exceeds 1000
    and is 100 when the [limit] parameter is absent or empty; there is no
    lower bound: a parameter that parses to a number of at most 1000,
    negative numbers included, is passed on unchanged, and one that does
    not parse gives NaN. *)
Theorem logs_limit_bounds (c : Context) :
  JS.gt (logs_limit c) (JS.Fin 1000) = false
  /\ (JS.truthy (req_query c "limit") = false -> logs_limit c = JS.Fin 100)
  /\ (forall p,
        req_query c "limit" = Some p -> p <> "" ->
        logs_limit c = match JS.parseInt p with
                       | JS.Fin n => JS.Fin (Z.min n 1000)
                       | JS.NaN => JS.NaN
                       end)
  /\ (forall p n,
        req_query c "limit" = Some p -> p <> "" ->
        JS.parseInt p = JS.Fin n -> n <= 1000 ->
        logs_limit c = JS.Fin n).
Proof.
  assert (Hgen : forall p,
             req_query c "limit" = Some p -> p <> "" ->
             logs_limit c = match JS.parseInt p with
                            | JS.Fin n => JS.Fin (Z.min n 1000)
                            | JS.NaN => JS.NaN
                            end).
  { intros p Hq Hne. unfold logs_limit, or_else. rewrite Hq.
    rewrite (truthy_nonempty p Hne). cbn [default].
    destruct (JS.parseInt p); reflexivity. }
  assert (Hdef : JS.truthy (req_query c "limit") = false -> logs_limit c = JS.Fin 100).
  { intros Hf. unfold logs_limit, or_else. rewrite Hf. reflexivity. }
  split; [|split; [exact Hdef | split; [exact Hgen|]]].
  - destruct (JS.truthy (req_query c "limit")) eqn:Ht.
    + destruct (req_query c "limit") as [p|] eqn:Hq; [|discriminate Ht].
      assert (Hne : p <> "").
      { intros ->. discriminate Ht. }
      rewrite (Hgen p eq_refl Hne).
      destruct (JS.parseInt p) as [|n]; [reflexivity|].
      simpl. apply Z.ltb_ge. lia.
    + rewrite (Hdef eq_refl). reflexivity.
  - intros p n Hq Hne Hp Hle. rewrite (Hgen p Hq Hne), Hp.
    f_equal. lia.
Qed.

Lemma logs_limit_bounds_witness :
  logs_limit (login_request "x") = JS.Fin 100.
Proof.
  apply (proj1 (proj2 (logs_limit_bounds (login_request "x")))).
  reflexivity.
Defined.
